(** * Cloudflare-IP-Updater: the reconciliation loop of [src/Main.cpp]

    A shallow embedding of the dynamic-DNS updater.  The program is one C++
    translation unit: command-line helpers, the lenient boolean parser
    [stob], the configuration loader [LoadData] and the polling loop of
    [main].

    What the program reads from its environment (the clock, the HTTP
    replies, the document of the configuration file) is an explicit input
    of the model; what it does to its environment (HTTP requests, log
    lines, console and logger calls) is recorded in a trace of events.
    Uncaught C++ exceptions are modelled by the [Throw] result: nothing in
    [main] catches them, so a [Throw] ends the process.  Where the source
    has no defined behaviour (a null pointer dereferenced or handed to
    [atoi] or to a [std::string]) the model has no result.

    Conventions.
    - [std::string] is [string] (a sequence of bytes), [size_t] is a [Z]
      reduced modulo [2^64]; no result below depends on the width.
    - [long], [int] and [unsigned int] values are [Z], with the range checks
      and the wrap-around of the source written out.
    - The clock is read in integral ticks of one nanosecond.  A [double] is
      a binary64 number of the standard library's [SpecFloat], with its
      rounding to nearest, ties to even: the comparison of line 211 is made
      on [double] milliseconds, as in the source.
    - The loop counter [unsigned int i] of line 269 is a [nat]: a
      configuration never holds [2^32] entries.
    - The behaviour of [std::istringstream], [std::stoi] and
      [std::string::substr] is that of ISO C++ (C++11 and later) in the "C"
      locale. *)

From Stdlib Require Import ZArith String Ascii Lia SpecFloat.
From stdpp Require Import gmap strings list.

Open Scope string_scope.
Open Scope Z_scope.
Open Scope list_scope.

(** ** Exceptions *)

Inductive exception : Type :=
| out_of_range        (* std::out_of_range *)
| invalid_argument    (* std::invalid_argument *)
| json_exception.     (* nlohmann::json::exception: parse_error, type_error *)

Inductive Exc (A : Type) : Type :=
| Ok (a : A)
| Throw (e : exception).
Arguments Ok {A} a.
Arguments Throw {A} e.

#[global] Instance Exc_ret : MRet Exc := fun A a => Ok a.
#[global] Instance Exc_bind : MBind Exc := fun A B f m =>
  match m with
  | Ok a => f a
  | Throw e => Throw e
  end.

(** ** [std::string] *)

Module StdString.

Definition SIZE_MODULUS : Z := 2 ^ 64.

(** [std::string::npos], the largest [size_t]. *)
Definition npos : Z := SIZE_MODULUS - 1.

(** Arithmetic on [size_t] wraps around. *)
Definition size_wrap (z : Z) : Z := z mod SIZE_MODULUS.

Definition size (s : string) : Z := Z.of_nat (String.length s).

Fixpoint find_char (c : ascii) (s : string) : option nat :=
  match s with
  | EmptyString => None
  | String d s' =>
      if Ascii.eqb d c then Some 0%nat else S <$> find_char c s'
  end.

(** [s.find_first_of(c)]: the index of the first [c], or [npos]. *)
Definition find_first_of (s : string) (c : ascii) : Z :=
  match find_char c s with
  | Some i => Z.of_nat i
  | None => npos
  end.

(** [s.substr(pos, count)]: throws when [pos > size()], and otherwise
    copies [min(count, size() - pos)] characters. *)
Definition substr (s : string) (pos count : Z) : Exc string :=
  if size s <? pos then Throw out_of_range
  else Ok (String.substring (Z.to_nat pos)
                            (Z.to_nat (Z.min count (size s - pos))) s).

End StdString.

(** ** The C character and number conversions *)

Module CLocale.

(** [isspace] in the "C" locale: space, \t, \n, \v, \f, \r. *)
Definition isspace (c : ascii) : bool :=
  let n := nat_of_ascii c in
  ((n =? 32) || ((9 <=? n) && (n <=? 13)))%nat.

Definition digit_of (c : ascii) : option Z :=
  let n := nat_of_ascii c in
  if ((48 <=? n) && (n <=? 57))%nat then Some (Z.of_nat n - 48) else None.

Fixpoint skip_space (s : string) : string :=
  match s with
  | EmptyString => EmptyString
  | String c s' => if isspace c then skip_space s' else s
  end.

(** The longest run of decimal digits at the head of [s]: its value
    (on top of [acc]), whether a digit was read, and what follows. *)
Fixpoint read_digits (s : string) (acc : Z) (seen : bool)
  : Z * bool * string :=
  match s with
  | EmptyString => (acc, seen, s)
  | String c s' =>
      match digit_of c with
      | Some d => read_digits s' (10 * acc + d) true
      | None => (acc, seen, s)
      end
  end.

(** A decimal integer field: an optional sign and digits.  The value
    is [None] when there is no digit (nothing can be converted). *)
Definition read_number (s : string) : option Z * string :=
  let '(neg, body) :=
    match s with
    | String "-" s' => (true, s')
    | String "+" s' => (false, s')
    | _ => (false, s)
    end in
  let '(v, seen, rest) := read_digits body 0 false in
  if seen then (Some (if neg then - v else v), rest) else (None, rest).

Definition INT_MIN : Z := - 2 ^ 31.
Definition INT_MAX : Z := 2 ^ 31 - 1.
Definition UINT_MODULUS : Z := 2 ^ 32.

(** [strtol(s, &end, 10)] before its range check: leading white space is
    skipped. *)
Definition strtol_field (s : string) : option Z :=
  fst (read_number (skip_space s)).

(** [std::stoi(s)]: [invalid_argument] when nothing converts,
    [out_of_range] when the value does not fit an [int]; characters after
    the number are ignored. *)
Definition stoi (s : string) : Exc Z :=
  match strtol_field s with
  | None => Throw invalid_argument
  | Some v =>
      if (v <? INT_MIN) || (INT_MAX <? v) then Throw out_of_range else Ok v
  end.

(** [atoi(s)]: 0 when nothing converts.  The C standard leaves the
    behaviour undefined for a null pointer and for a value that does not
    fit an [int]: both are [None]. *)
Definition atoi (s : option string) : option Z :=
  match s with
  | None => None
  | Some s =>
      match strtol_field s with
      | None => Some 0
      | Some v =>
          if (v <? INT_MIN) || (INT_MAX <? v) then None else Some v
      end
  end.

End CLocale.

(** ** [std::istringstream], as far as [stob] uses it *)

Module IStream.
Import CLocale.

Record istringstream : Type := mk_istringstream {
  rdbuf : string;       (* the characters not yet read *)
  eofbit : bool;
  failbit : bool;
  boolalpha : bool      (* the [std::boolalpha] format flag *)
}.

Definition open (s : string) : istringstream :=
  mk_istringstream s false false false.

Definition good (ist : istringstream) : bool :=
  negb (eofbit ist) && negb (failbit ist).

Definition fail (ist : istringstream) : bool := failbit ist.

Definition clear (ist : istringstream) : istringstream :=
  mk_istringstream (rdbuf ist) false false (boolalpha ist).

Definition set_boolalpha (ist : istringstream) : istringstream :=
  mk_istringstream (rdbuf ist) (eofbit ist) (failbit ist) true.

Definition is_empty (s : string) : bool :=
  match s with EmptyString => true | _ => false end.

(** The characters of [s] after its longest common prefix with [name]. *)
Fixpoint drop_common (name s : string) : string :=
  match name, s with
  | String a name', String b s' =>
      if Ascii.eqb a b then drop_common name' s' else s
  | _, _ => s
  end.

(** [std::num_get::do_get] for [bool] ([facet.num.get.virtuals]).
    Without [boolalpha] the field is read as a [long]; 0 stores [false],
    1 stores [true], a field that does not convert stores [false] and
    fails, and every other value (also one out of the range of [long])
    stores [true] and fails.  With [boolalpha] the input is matched with
    the names "true" and "false"; no match stores [false] and fails. *)
Definition do_get_bool (ist : istringstream) : istringstream * bool :=
  if boolalpha ist then
    if String.prefix "true" (rdbuf ist) then
      (mk_istringstream (drop_common "true" (rdbuf ist)) false false true,
       true)
    else if String.prefix "false" (rdbuf ist) then
      (mk_istringstream (drop_common "false" (rdbuf ist)) false false true,
       false)
    else
      let rest :=
        if String.prefix "t" (rdbuf ist) then drop_common "true" (rdbuf ist)
        else drop_common "false" (rdbuf ist) in
      (mk_istringstream rest (is_empty rest) true true, false)
  else
    let '(field, rest) := read_number (rdbuf ist) in
    let eof := is_empty rest in
    match field with
    | None => (mk_istringstream rest eof true false, false)
    | Some 0 => (mk_istringstream rest eof false false, false)
    | Some 1 => (mk_istringstream rest eof false false, true)
    | Some _ => (mk_istringstream rest eof true false, true)
    end.

(** [ist >> v] for a [bool]: the sentry skips white space and fails at
    the end of the input, in which case [v] keeps its value. *)
Definition extract_bool (ist : istringstream) (v : bool)
  : istringstream * bool :=
  if good ist then
    let rest := skip_space (rdbuf ist) in
    if is_empty rest then
      (mk_istringstream rest true true (boolalpha ist), v)
    else
      do_get_bool (mk_istringstream rest false false (boolalpha ist))
  else
    (mk_istringstream (rdbuf ist) (eofbit ist) true (boolalpha ist), v).

End IStream.

(** ** [stob] (lines 52-72) *)

Definition stob (s : string) (throw_on_error : bool) : Exc bool :=
  let result := false in
  let ist := IStream.open s in
  let '(ist, result) := IStream.extract_bool ist result in
  let '(ist, result) :=
    if IStream.fail ist then
      IStream.extract_bool (IStream.set_boolalpha (IStream.clear ist)) result
    else (ist, result) in
  if IStream.fail ist && throw_on_error then Throw invalid_argument
  else Ok result.

(** ** The slicing of the resolver's reply (lines 231-233) *)

Definition slice_ip (json : string) : Exc string :=
  sub ← StdString.substr json
          (StdString.size_wrap (StdString.find_first_of json ":" + 2))
          StdString.npos;
  StdString.substr sub 0 (StdString.size_wrap (StdString.size sub - 2)).

(** The double quote, as a one-character string. *)
Definition dquote : string := String "034" EmptyString.

(** The text the resolver sends for the address [x]: an opening brace,
    the key [ip] and the value [x], each between double quotes and with a
    colon in between, and a closing brace. *)
Definition ipify_body (x : string) : string :=
  "{" +:+ dquote +:+ "ip" +:+ dquote +:+ ":" +:+ dquote +:+ x +:+ dquote
  +:+ "}".

(** ** Data model *)

(** [struct DNS_Entry] (lines 74-93): every field is kept as the string
    read from the configuration file. *)
Record DNS_Entry : Type := mk_DNS_Entry {
  prefix : string;
  type : string;
  proxied : string;
  ttl : string;
  comment : string;
  token : string
}.

(** [struct CloudflareData] (lines 95-103). *)
Record CloudflareData : Type := mk_CloudflareData {
  api_token : string;
  dns_token : string;
  dns_record : string;
  entries : list DNS_Entry
}.

(** The values the payload of line 256 holds, and the payload itself: a
    [nlohmann::json] object, that is a [std::map] from keys to values. *)
Inductive json_value : Type :=
| JString (s : string)
| JBool (b : bool)
| JInt (n : Z).

Abbreviation json_object := (gmap string json_value).

(** [cpr::Response], as far as [main] reads it. *)
Record Response : Type := mk_Response {
  status_code : Z;
  text : string
}.

(** ** Events: what the program does to its environment *)

Inductive level : Type := info | debug | error.

Inductive log_arg : Type :=
| AStr (s : string)
| ALong (n : Z).

(** The request of lines 273-277: URL, bearer token, the value of the
    [Content-Type] header, and body. *)
Record put_request : Type := mk_put_request {
  put_url : string;
  put_bearer : string;
  put_content_type : string;
  put_body : string
}.

Inductive event : Type :=
| Get (url : string)                                 (* cpr::Get *)
| Put (r : put_request)                              (* cpr::Put *)
| Log (l : level) (fmt : string) (args : list log_arg) (* spdlog::info, ... *)
| ClearScreen
| Flush                                              (* log->flush() *)
| Shutdown.                                          (* spdlog::shutdown() *)

Fixpoint puts_of (tr : list event) : list put_request :=
  match tr with
  | [] => []
  | Put r :: tr' => r :: puts_of tr'
  | _ :: tr' => puts_of tr'
  end.

Fixpoint gets_of (tr : list event) : list string :=
  match tr with
  | [] => []
  | Get u :: tr' => u :: gets_of tr'
  | _ :: tr' => gets_of tr'
  end.


(** ** Computations: a trace of events and a value or an exception *)

Record M (A : Type) : Type := mk_M {
  trace : list event;
  result : Exc A
}.
Arguments mk_M {A} trace result.
Arguments trace {A} m.
Arguments result {A} m.

#[global] Instance M_ret : MRet M := fun A a => mk_M [] (Ok a).
#[global] Instance M_bind : MBind M := fun A B f m =>
  match result m with
  | Ok a => mk_M (trace m ++ trace (f a)) (result (f a))
  | Throw e => mk_M (trace m) (Throw e)
  end.

Definition emit (e : event) : M unit := mk_M [e] (Ok tt).
Definition lift {A : Type} (x : Exc A) : M A := mk_M [] x.
Definition when (b : bool) (m : M unit) : M unit := if b then m else mret tt.

(** [v.at(i)]: bounds-checked access to a [std::vector]. *)
Definition at_ {A : Type} (v : list A) (i : nat) : Exc A :=
  match v !! i with
  | Some a => Ok a
  | None => Throw out_of_range
  end.

(** ** The command line (lines 13-31 and 156-165) *)

Definition CmdOptionExists (argv : list string) (opt : string) : bool :=
  bool_decide (opt ∈ argv).

(** The argument after the first occurrence of [opt]; the null pointer
    when there is none. *)
Fixpoint GetCmdOption (argv : list string) (opt : string)
  : option string :=
  match argv with
  | [] => None
  | a :: rest =>
      if String.eqb a opt then head rest else GetCmdOption rest opt
  end.

(** Lines 156-161: [unsigned int update_rate = 30], replaced by
    [atoi] of the argument of [-r], converted to [unsigned int].  [None]
    when [atoi] has no defined result. *)
Definition update_rate_of (argv : list string) : option Z :=
  if CmdOptionExists argv "-r" then
    n ← CLocale.atoi (GetCmdOption argv "-r");
    Some (n mod CLocale.UINT_MODULUS)
  else Some 30.

(** ** [LoadData] (lines 105-144)

    The file [data.dns] and the XML library are the environment. *)

(** An element of the document, as far as [LoadData] reads it: what
    [GetText()] returns (the null pointer when the element does not start
    with text), the attributes, and the child elements. *)
#[warnings="-register-all"]
Inductive XMLElement : Type :=
| mk_XMLElement (GetText : option string)
    (attributes : list (string * string)) (elements : list XMLElement).

Definition GetText (e : XMLElement) : option string :=
  match e with mk_XMLElement t _ _ => t end.
Definition attributes (e : XMLElement) : list (string * string) :=
  match e with mk_XMLElement _ a _ => a end.
Definition elements (e : XMLElement) : list XMLElement :=
  match e with mk_XMLElement _ _ c => c end.

(** A pointer to an element is the list of that element and the sibling
    elements after it; the null pointer is the empty list.  A member
    function called through the null pointer has no defined result, nor
    has a [std::string] made from a null [const char*]: both are
    [None]. *)
Definition FirstChildElement (p : list XMLElement)
  : option (list XMLElement) :=
  e ← head p; Some (elements e).

Definition NextSiblingElement (p : list XMLElement)
  : option (list XMLElement) :=
  match p with
  | [] => None
  | _ :: q => Some q
  end.

Definition text_of (p : list XMLElement) : option string :=
  e ← head p; GetText e.

(** [element->Attribute(name)]: the value of the first attribute of that
    name, the null pointer when there is none. *)
Fixpoint Attribute (attrs : list (string * string)) (name : string)
  : option string :=
  match attrs with
  | [] => None
  | (n, v) :: rest => if String.eqb n name then Some v else Attribute rest name
  end.

(** Line 131. *)
Definition read_entry (e : XMLElement) : option DNS_Entry :=
  prefix ← Attribute (attributes e) "prefix";
  type ← Attribute (attributes e) "type";
  proxied ← Attribute (attributes e) "proxied";
  ttl ← Attribute (attributes e) "ttl";
  comment ← Attribute (attributes e) "comment";
  token ← Attribute (attributes e) "token";
  Some (mk_DNS_Entry prefix type proxied ttl comment token).

(** The loop of lines 129-132, from the element [p] points to. *)
Fixpoint read_entries (p : list XMLElement) : option (list DNS_Entry) :=
  match p with
  | [] => Some []
  | e :: q =>
      entry ← read_entry e;
      rest ← read_entries q;
      Some (entry :: rest)
  end.

(** Lines 118-132, [xml] being the pointer [xml->FirstChildElement()]
    returns. *)
Definition read_document (xml : list XMLElement) : option CloudflareData :=
  element ← FirstChildElement xml;
  api_token ← text_of element;
  element ← NextSiblingElement element;
  dns_token ← text_of element;
  element ← NextSiblingElement element;
  dns_record ← text_of element;
  element ← NextSiblingElement element;
  element ← FirstChildElement element;
  entries ← read_entries element;
  Some (mk_CloudflareData api_token dns_token dns_record entries).

(** The file fails to load; or it loads and an exception is raised while
    it is read (nothing in lines 118-132 throws but the copies of the
    strings, when memory runs out); or it loads as the document whose
    elements are given. *)
Inductive data_file : Type :=
| load_error
| malformed
| document (xml : list XMLElement).

(** [None] when reading the document has no defined behaviour. *)
Definition LoadData (f : data_file) : option (M (option CloudflareData)) :=
  match f with
  | load_error =>
      Some (emit (Log error "Failed to load DNS entry data file!" []);;
            mret None)
  | malformed =>
      Some (emit (Log error "Failed to parse DNS entry data file!" []);;
            mret None)
  | document xml =>
      data ← read_document xml;
      Some (emit (Log info "Loaded DNS entry data file..." []);;
            mret (Some data))
  end.

(** ** The state of the loop (lines 152-154, 201, 203) *)

Record State : Type := mk_State {
  ip_address : string;
  old_ip_address : string;
  timer_start : Z;
  first_run : bool
}.

Definition set_ip_address (ip : string) (st : State) : State :=
  mk_State ip (old_ip_address st) (timer_start st) (first_run st).
Definition set_old_ip_address (ip : string) (st : State) : State :=
  mk_State (ip_address st) ip (timer_start st) (first_run st).
Definition set_timer_start (t : Z) (st : State) : State :=
  mk_State (ip_address st) (old_ip_address st) t (first_run st).
Definition set_first_run (b : bool) (st : State) : State :=
  mk_State (ip_address st) (old_ip_address st) (timer_start st) b.

Definition initial_state (now : Z) : State :=
  mk_State "invalid" "0.0.0.0" now true.

(** What one iteration of the loop reads from its environment: the clock
    at line 209 and at line 217, the reply of the resolver, and the reply
    to the update request of each index. *)
Record Env : Type := mk_Env {
  timer_end : Z;
  timer_restart : Z;
  response : Response;
  post : nat → Response
}.

(** What [main] has fixed when the loop starts. *)
Record Config : Type := mk_Config {
  update_rate : Z;
  DebugOutput : bool;
  dns_data : CloudflareData
}.

Definition resolver_url : string := "https://api.ipify.org?format=json".
Definition newline : string := String "010" EmptyString.
Definition fmt_response : string := "Cloudflare API response:" +:+ newline +:+ "{0}".

(** ** [double] *)

Module Double.

Definition prec : Z := 53.
Definition emax : Z := 1024.

(** [static_cast<double>(z)] for an integer [z]. *)
Definition of_int (z : Z) : spec_float := binary_normalize prec emax z 0 false.

Definition mul : spec_float → spec_float → spec_float := SFmul prec emax.
Definition div : spec_float → spec_float → spec_float := SFdiv prec emax.
Definition ltb : spec_float → spec_float → bool := SFltb.

(** The [double] that holds the integer [z], for [0 < z < 2^53]: a
    mantissa of 53 bits and the exponent that goes with it. *)
Definition exact (z : Z) : spec_float :=
  S754_finite false (Z.to_pos (z * 2 ^ (prec - Zdigits2 z)))
    (Zdigits2 z - prec).

(** Whether a value is below zero. *)
Definition negative (x : spec_float) : bool :=
  match x with
  | S754_infinity s | S754_finite s _ _ => s
  | S754_zero _ | S754_nan => false
  end.

End Double.

(** Line 210: the time elapsed since the anchor, a number of nanoseconds,
    converted to [std::chrono::duration<double, std::milli>]: the count is
    cast to [double] and divided by the [double] 1000000. *)
Definition elapsed_ms (st : State) (env : Env) : spec_float :=
  Double.div (Double.of_int (timer_end env - timer_start st))
    (Double.of_int 1000000).

(** Line 211: [static_cast<double>(update_rate) * 1000.0]. *)
Definition interval_ms (rate : Z) : spec_float :=
  Double.mul (Double.of_int rate) (Double.of_int 1000).

(** The test of line 211: the loop goes on waiting. *)
Definition waiting (rate : Z) (st : State) (env : Env) : bool :=
  Double.ltb (elapsed_ms st env) (interval_ms rate).

(** Lines 207-223: whether the iteration goes on to the cycle, and the
    state it goes on with. *)
Definition gate (rate : Z) (st : State) (env : Env) : State * bool :=
  if negb (first_run st) then
    if waiting rate st env then (st, false)
    else (set_timer_start (timer_restart env) st, true)
  else (set_first_run false st, true).

(** ** The update batch (lines 251-300) *)

(** The payload of one entry (lines 256-264). *)
Definition make_payload (ip : string) (entry : DNS_Entry) : Exc json_object :=
  b ← stob (proxied entry) false;
  n ← CLocale.stoi (ttl entry);
  mret ({[ "content" := JString ip;
           "name" := JString (prefix entry);
           "proxied" := JBool b;
           "type" := JString (type entry);
           "comment" := JString (comment entry);
           "id" := JString (token entry);
           "ttl" := JInt n ]} : json_object).

(** The loop of lines 254-267, which fills the vectors [payload] and
    [records]. *)
Fixpoint build_requests (ip : string) (data : CloudflareData)
    (es : list DNS_Entry) (payload : list json_object) (records : list string)
  : Exc (list json_object * list string) :=
  match es with
  | [] => mret (payload, records)
  | entry :: es' =>
      j ← make_payload ip entry;
      build_requests ip data es' (payload ++ [j])
        (records ++ [dns_record data +:+ token entry])
  end.

(** How far the process has got once the given readings are used up. *)
Inductive Outcome : Type :=
| Returned (code : Z)          (* [main] returned *)
| Running (st : State)         (* the loop is at its head *)
| Terminated (e : exception)   (* an exception left [main] *)
| Undefined.                   (* no defined behaviour *)

Definition banner : string := "Cloudflare DNS Entry Auto Update Tool v2.0".

(** Lines 189-199. *)
Definition dump_config (data : CloudflareData) : M unit :=
  emit (Log debug "Loaded API Token:   {0}" [AStr (api_token data)]);;
  emit (Log debug "Loaded DNS Token:   {0}" [AStr (dns_token data)]);;
  emit (Log debug "Loaded Zone Record: {0}" [AStr (dns_record data)]);;
  mk_M (map (fun entry =>
               Log debug "Loaded DNS Entry:   {0}, {1}, {2}, {3}"
                 [AStr (prefix entry); AStr (type entry);
                  AStr (proxied entry); AStr (token entry)])
          (entries data)) (Ok tt).

(** Whether the reply to an update request counts as a failure
    (line 279). *)
Definition failed (r : Response) : bool := negb (status_code r =? 200).

(** Whether one of the [n] replies from index [i] on is a failure. *)
Definition any_failed (env : Env) (i n : nat) : bool :=
  existsb (fun k => failed (post env k)) (seq i n).

(** What the loop may do to its environment: fetch the resolver's URL;
    send an update, with the bearer token of the configuration and as
    JSON, to the record of a configured entry; write a log line, at debug
    level only in the debug mode; clear the console; flush the log. *)
Definition allowed (cfg : Config) (e : event) : Prop :=
  match e with
  | Get u => u = resolver_url
  | Put r =>
      put_bearer r = dns_token (dns_data cfg) ∧
      put_content_type r = "application/json" ∧
      ∃ entry, entry ∈ entries (dns_data cfg) ∧
               put_url r = dns_record (dns_data cfg) +:+ token entry
  | Log l _ _ => l = debug → DebugOutput cfg = true
  | ClearScreen | Flush => True
  | Shutdown => False
  end.

(** The events of a batch outside the debug mode, from index [i] on: for
    each entry its request, then the line that logs the reply. *)
Fixpoint batch_events (env : Env) (i : nat) (es : list DNS_Entry)
    (rs : list put_request) : list event :=
  match es, rs with
  | entry :: es', r :: rs' =>
      Put r
      :: (if status_code (post env i) =? 200 then
            Log info "POST operation for entry '{0}' successful!"
              [AStr (prefix entry)]
          else
            Log error "POST operation for entry '{0}' failed with code: {1}"
              [AStr (prefix entry); ALong (status_code (post env i))])
      :: batch_events env (S i) es' rs'
  | _, _ => []
  end.

(** ** Sample inputs *)

Module Sample.

Definition home : DNS_Entry :=
  mk_DNS_Entry "home" "A" "true" "120" "router" "372e6795".
Definition vpn : DNS_Entry :=
  mk_DNS_Entry "vpn" "A" "false" "1" "tunnel" "9a7806c2".
Definition auto_ttl : DNS_Entry :=
  mk_DNS_Entry "www" "A" "true" "auto" "site" "023e105f".

Definition zone : string :=
  "https://api.cloudflare.com/client/v4/zones/z/dns_records/".

Definition data : CloudflareData :=
  mk_CloudflareData "api" "secret" zone [home; vpn].
Definition bad_data : CloudflareData :=
  mk_CloudflareData "api" "secret" zone [auto_ttl].

Definition cfg : Config := mk_Config 30 false data.
Definition bad_cfg : Config := mk_Config 30 false bad_data.
Definition wide_cfg : Config := mk_Config 4294967295 false data.

(** The document that holds a configuration: under the root, the three
    elements with the tokens and the record path as their text, then the
    element whose children are the entries. *)
Definition xml_entry (e : DNS_Entry) : XMLElement :=
  mk_XMLElement None
    [("prefix", prefix e); ("type", type e); ("proxied", proxied e);
     ("ttl", ttl e); ("comment", comment e); ("token", token e)] [].
Definition xml (d : CloudflareData) : list XMLElement :=
  [mk_XMLElement None []
     [mk_XMLElement (Some (api_token d)) [] [];
      mk_XMLElement (Some (dns_token d)) [] [];
      mk_XMLElement (Some (dns_record d)) [] [];
      mk_XMLElement None [] (map xml_entry (entries d))]].
Definition file : data_file := document (xml data).
(** A document that ends after the first token, and one whose entry has
    no [ttl]. *)
Definition truncated : data_file :=
  document [mk_XMLElement None [] [mk_XMLElement (Some "api") [] []]].
Definition no_ttl : data_file :=
  document
    [mk_XMLElement None []
       [mk_XMLElement (Some "api") [] [];
        mk_XMLElement (Some "secret") [] [];
        mk_XMLElement (Some zone) [] [];
        mk_XMLElement None []
          [mk_XMLElement None
             [("prefix", "home"); ("type", "A"); ("proxied", "true");
              ("comment", "router"); ("token", "372e6795")] []]]].

(** A stand-in for the JSON library: it serialises nothing and accepts
    every text but the empty one. *)
Definition dump (j : json_object) : Exc string := Ok "{}".
Definition pretty (s : string) : Exc string :=
  if String.eqb s "" then Throw json_exception else Ok s.

Definition ok : Response := mk_Response 200 "{}".
Definition ko : Response := mk_Response 500 "{}".

(** Readings of the environment: the resolver answers 1.2.3.4 and every
    update succeeds; the same with a failure of the second update, and
    of the first; the resolver answers the initial baseline; the resolver
    fails. *)
Definition all_ok : Env :=
  mk_Env 40000000000 40000000001 (mk_Response 200 (ipify_body "1.2.3.4"))
    (fun _ => ok).
Definition second_fails : Env :=
  mk_Env 40000000000 40000000001 (mk_Response 200 (ipify_body "1.2.3.4"))
    (fun i => if (i =? 1)%nat then ko else ok).
Definition unchanged : Env :=
  mk_Env 40000000000 40000000001 (mk_Response 200 (ipify_body "0.0.0.0"))
    (fun _ => ok).
Definition resolver_down : Env :=
  mk_Env 40000000000 40000000001 (mk_Response 0 "") (fun _ => ok).
(** A reading taken five seconds after the anchor [0]. *)
Definition early : Env :=
  mk_Env 5000000000 5000000001 (mk_Response 200 (ipify_body "1.2.3.4"))
    (fun _ => ok).
(** A reading taken one nanosecond before 4294967295 seconds have passed
    since the anchor [0]. *)
Definition almost : Env :=
  mk_Env 4294967294999999999 4294967295000000000
    (mk_Response 200 (ipify_body "1.2.3.4")) (fun _ => ok).

(** The requests of the two entries of [data] for the address
    1.2.3.4. *)
Definition requests : list put_request :=
  [mk_put_request (zone +:+ "372e6795") "secret" "application/json" "{}";
   mk_put_request (zone +:+ "9a7806c2") "secret" "application/json" "{}"].

(** The command line, and the state of the loop at its first iteration
    and at a later one. *)
Definition argv : list string := ["updater"].
Definition fresh : State := initial_state 0.
Definition later : State := set_first_run false fresh.

End Sample.

(** ** The loop and [main] *)

Section Loop.

(** The JSON library is not part of the repository.  [json_dump j] is
    [j.dump()], the serialisation of a payload, and [json_pretty s] is
    [nlohmann::json::parse(s).dump(4)]; either may throw. *)
Variable json_dump : json_object → Exc string.
Variable json_pretty : string → Exc string.

(** Lines 279-299: what the loop does with the reply to the request of
    index [i]; the value is the flag [error]. *)
Definition handle_reply (cfg : Config) (reply : Response) (i : nat)
    (err : bool) : M bool :=
  if status_code reply =? 200 then
    entry ← lift (at_ (entries (dns_data cfg)) i);
    emit (Log info "POST operation for entry '{0}' successful!"
            [AStr (prefix entry)]);;
    (if DebugOutput cfg then
       s ← lift (json_pretty (text reply));
       emit (Log debug fmt_response [AStr s])
     else mret tt);;
    mret err
  else
    entry ← lift (at_ (entries (dns_data cfg)) i);
    emit (Log error "POST operation for entry '{0}' failed with code: {1}"
            [AStr (prefix entry); ALong (status_code reply)]);;
    when (DebugOutput cfg)
      (emit (Log debug fmt_response [AStr (text reply)]));;
    mret true.

(** The loop of lines 269-300, [n] iterations from index [i] on; the
    value is the flag [error]. *)
Fixpoint put_loop (cfg : Config) (payload : list json_object)
    (records : list string) (env : Env) (n i : nat) (err : bool) : M bool :=
  match n with
  | O => mret err
  | S n' =>
      url ← lift (at_ records i);
      j ← lift (at_ payload i);
      body ← lift (json_dump j);
      emit (Put (mk_put_request url (dns_token (dns_data cfg))
                   "application/json" body));;
      err' ← handle_reply cfg (post env i) i err;
      put_loop cfg payload records env n' (S i) err'
  end.

(** Lines 225-318: one cycle, from the call of the resolver on.  The
    path through [continue] (line 242) skips the final [log->flush()]. *)
Definition cycle (cfg : Config) (st : State) (env : Env) : M State :=
  emit (Get resolver_url);;
  if status_code (response env) =? 200 then
    ip ← lift (slice_ip (text (response env)));
    let st := set_ip_address ip st in
    if String.eqb (ip_address st) (old_ip_address st) then
      when (DebugOutput cfg)
        (emit (Log debug "Public IP has not changed since last check" []));;
      mret st
    else
      emit ClearScreen;;
      emit (Log info "Retrieved new public IP address: {0}"
              [AStr (ip_address st)]);;
      '(payload, records) ←
        lift (build_requests (ip_address st) (dns_data cfg)
                (entries (dns_data cfg)) [] []);
      err ← put_loop cfg payload records env (length payload) 0 false;
      let st :=
        if err : bool then set_ip_address "invalid" st
        else set_old_ip_address (ip_address st) st in
      emit Flush;;
      mret st
  else
    emit (Log error "Failed to retrieve public IP address, code: {0}"
            [ALong (status_code (response env))]);;
    let st := set_ip_address "invalid" st in
    emit Flush;;
    mret st.

(** One iteration of [while (active)] (lines 205-319). *)
Definition iteration (cfg : Config) (st : State) (env : Env) : M State :=
  let '(st, go) := gate (update_rate cfg) st env in
  if go then cycle cfg st env else mret st.

(** The iterations that consume the given readings of the environment.
    [active] is never assigned, so the loop condition always holds. *)
Fixpoint run (cfg : Config) (st : State) (envs : list Env) : M State :=
  match envs with
  | [] => mret st
  | env :: envs' => st' ← iteration cfg st env; run cfg st' envs'
  end.

(** The cycles alone, one for each reading. *)
Fixpoint cycles (cfg : Config) (st : State) (envs : list Env) : M State :=
  match envs with
  | [] => mret st
  | env :: envs' => st' ← cycle cfg st env; cycles cfg st' envs'
  end.

(** [main] (lines 146-325), up to the point where the readings are used
    up. *)
Definition main (argv : list string) (file : data_file) (now : Z)
    (envs : list Env) : list event * Outcome :=
  match update_rate_of argv with
  | None => ([], Undefined)
  | Some rate =>
      let dbg := CmdOptionExists argv "-d" in
      match LoadData file with
      | None => ([Log info banner []], Undefined)
      | Some loaded =>
          match result loaded with
          | Ok (Some data) =>
              let cfg := mk_Config rate dbg data in
              let m :=
                when dbg (dump_config data);;
                run cfg (initial_state now) envs in
              (Log info banner [] :: trace loaded ++ trace m,
               match result m with
               | Ok st => Running st
               | Throw e => Terminated e
               end)
          | _ =>
              (Log info banner [] :: trace loaded ++ [Flush; Shutdown],
               Returned 0)
          end
      end
  end.

(** *** Notions used in the statements *)

(** The request the batch sends for one entry when the address is [ip]
    (lines 256-266 and 273-277). *)
Definition request_of (cfg : Config) (ip : string) (entry : DNS_Entry)
  : Exc put_request :=
  j ← make_payload ip entry;
  body ← json_dump j;
  mret (mk_put_request (dns_record (dns_data cfg) +:+ token entry)
          (dns_token (dns_data cfg)) "application/json" body).

(** The state a cycle that has sent its batch for the address [ip] ends
    in (lines 302-309), [st] being the state it started in. *)
Definition settle (ip : string) (err : bool) (st : State) : State :=
  if err then set_ip_address "invalid" (set_ip_address ip st)
  else set_old_ip_address ip (set_ip_address ip st).

(** What is left of the cycle once the address [ip] is known to be new
    and the vectors [p] are filled (lines 269-309 and 318). *)
Definition batch_of (cfg : Config) (st : State) (env : Env) (ip : string)
    (p : list json_object * list string) : M State :=
  err ← put_loop cfg p.1 p.2 env (length p.1) 0 false;
  emit Flush;; mret (settle ip err st).

(** No exception is raised while the replies to the updates are logged:
    outside the debug mode nothing is parsed, and in the debug mode the
    body of every successful reply must parse. *)
Definition replies_loggable (cfg : Config) (env : Env) : Prop :=
  DebugOutput cfg = true →
  ∀ k, (k < length (entries (dns_data cfg)))%nat →
         status_code (post env k) = 200 →
         ∃ s, json_pretty (text (post env k)) = Ok s.



(** *** Computations *)

Lemma result_bind {A B : Type} (m : M A) (f : A → M B) :
  result (m ≫= f) =
  match result m with Ok a => result (f a) | Throw e => Throw e end.
Proof. unfold mbind, M_bind. by destruct (result m). Qed.

Lemma trace_bind {A B : Type} (m : M A) (f : A → M B) :
  trace (m ≫= f) =
  trace m ++ match result m with Ok a => trace (f a) | Throw _ => [] end.
Proof.
  unfold mbind, M_bind. destruct (result m); simpl; [done|].
  by rewrite app_nil_r.
Qed.

Lemma puts_of_app (t1 t2 : list event) :
  puts_of (t1 ++ t2) = puts_of t1 ++ puts_of t2.
Proof.
  induction t1 as [|e t1 IH]; [done|].
  destruct e; simpl; by rewrite ?IH.
Qed.

Lemma gets_of_app (t1 t2 : list event) :
  gets_of (t1 ++ t2) = gets_of t1 ++ gets_of t2.
Proof.
  induction t1 as [|e t1 IH]; [done|].
  destruct e; simpl; by rewrite ?IH.
Qed.

Lemma at_lookup {A : Type} (v : list A) (i : nat) (a : A) :
  v !! i = Some a → at_ v i = Ok a.
Proof. unfold at_. by intros ->. Qed.

(** *** The vectors [payload] and [records] *)

Lemma build_requests_Ok ip data es payload records p r :
  build_requests ip data es payload records = Ok (p, r) →
  ∃ js, Forall2 (fun e j => make_payload ip e = Ok j) es js ∧
        p = payload ++ js ∧
        r = records ++ ((fun e => dns_record data +:+ token e) <$> es).
Proof.
  revert payload records.
  induction es as [|e es IH]; intros payload records; simpl.
  - intros [= <- <-]. exists []. by rewrite !app_nil_r.
  - destruct (make_payload ip e) as [j|x] eqn:Hj; simpl; [|done].
    intros H. destruct (IH _ _ H) as (js & Hjs & -> & ->).
    exists (j :: js). split; [by constructor|].
    by rewrite <- !app_assoc.
Qed.

Lemma build_requests_total ip data es js payload records :
  Forall2 (fun e j => make_payload ip e = Ok j) es js →
  build_requests ip data es payload records =
  Ok (payload ++ js,
      records ++ ((fun e => dns_record data +:+ token e) <$> es)).
Proof.
  intros H. revert payload records.
  induction H as [|e j es js Hj _ IH]; intros payload records; simpl.
  - by rewrite !app_nil_r.
  - rewrite Hj. simpl. rewrite IH. by rewrite <- !app_assoc.
Qed.

(** *** The reply to one request *)

Lemma handle_reply_puts cfg reply i err :
  puts_of (trace (handle_reply cfg reply i err)) = [].
Proof.
  unfold handle_reply, when, lift, emit, at_.
  destruct (status_code reply =? 200), (entries (dns_data cfg) !! i),
    (DebugOutput cfg); try destruct (json_pretty (text reply)); done.
Qed.

Lemma handle_reply_Ok cfg reply i err err' :
  result (handle_reply cfg reply i err) = Ok err' →
  err' = err || failed reply.
Proof.
  unfold handle_reply, failed, when, lift, emit, at_.
  destruct (status_code reply =? 200), (entries (dns_data cfg) !! i),
    (DebugOutput cfg); try destruct (json_pretty (text reply)); simpl;
    intros [= <-]; by rewrite ?orb_true_r, ?orb_false_r.
Qed.

Lemma handle_reply_total cfg reply i err e :
  entries (dns_data cfg) !! i = Some e →
  (DebugOutput cfg = true → status_code reply = 200 →
   ∃ s, json_pretty (text reply) = Ok s) →
  result (handle_reply cfg reply i err) = Ok (err || failed reply).
Proof.
  intros He Hlog. unfold handle_reply, failed, when, lift, emit, at_.
  rewrite He.
  destruct (Z.eqb_spec (status_code reply) 200) as [H200|H200],
    (DebugOutput cfg) eqn:Hd; simpl; rewrite ?orb_true_r, ?orb_false_r;
    try done.
  destruct (Hlog eq_refl H200) as [s ->]. done.
Qed.

(** *** The loop over the requests *)

Lemma request_of_inv cfg ip e r :
  request_of cfg ip e = Ok r →
  ∃ j body, make_payload ip e = Ok j ∧ json_dump j = Ok body ∧
    r = mk_put_request (dns_record (dns_data cfg) +:+ token e)
          (dns_token (dns_data cfg)) "application/json" body.
Proof.
  unfold request_of.
  destruct (make_payload ip e) as [j|] eqn:Hj; simpl; [|done].
  destruct (json_dump j) as [body|] eqn:Hb; simpl; [|done].
  intros [= <-]. by exists j, body.
Qed.

Section Batch.

Variables (cfg : Config) (ip : string) (env : Env).
Variables (payload : list json_object) (records : list string).

Hypothesis payload_built :
  Forall2 (fun e j => make_payload ip e = Ok j)
    (entries (dns_data cfg)) payload.
Hypothesis records_built :
  records =
  (fun e => dns_record (dns_data cfg) +:+ token e)
    <$> entries (dns_data cfg).

(** The vectors hold, at an index of the configuration, what the
    entry at that index yields: [at] does not throw. *)
Lemma vectors_at i e :
  entries (dns_data cfg) !! i = Some e →
  ∃ j, make_payload ip e = Ok j ∧ at_ payload i = Ok j ∧
       at_ records i = Ok (dns_record (dns_data cfg) +:+ token e) ∧
       at_ (entries (dns_data cfg)) i = Ok e.
Proof.
  intros He.
  destruct (Forall2_lookup_l _ _ _ _ _ payload_built He) as (j & Hj & Hmk).
  exists j. repeat split; [done|by apply at_lookup| |by apply at_lookup].
  apply at_lookup. by rewrite records_built, list_lookup_fmap, He.
Qed.

(** Every request the loop sends is the request of the entry at its
    index. *)
Lemma put_loop_puts n i err idx r :
  (i + n = length (entries (dns_data cfg)))%nat →
  puts_of (trace (put_loop cfg payload records env n i err)) !! idx
    = Some r →
  ∃ e, entries (dns_data cfg) !! (i + idx)%nat = Some e ∧
       request_of cfg ip e = Ok r.
Proof.
  revert i err idx.
  induction n as [|n IH]; intros i err idx Hlen; [done|].
  destruct (lookup_lt_is_Some_2 (entries (dns_data cfg)) i) as [e He];
    [lia|].
  destruct (vectors_at i e He) as (j & Hmk & Hp & Hr & _).
  simpl. rewrite Hr, Hp. unfold lift, emit.
  repeat (rewrite trace_bind; simpl).
  destruct (json_dump j) as [body|] eqn:Hb; simpl; [|done].
  rewrite puts_of_app, handle_reply_puts. simpl.
  destruct idx as [|idx]; simpl.
  - intros [= <-]. exists e. rewrite Nat.add_0_r. split; [done|].
    unfold request_of. rewrite Hmk. simpl. by rewrite Hb.
  - destruct (result (handle_reply cfg (post env i) i err)) as [e1|];
      [|done].
    intros H. rewrite Nat.add_succ_r. apply (IH (S i) e1 idx); [lia|done].
Qed.

(** When the loop ends, it has sent one request for each index, and
    the flag tells whether a reply was a failure. *)
Lemma put_loop_Ok n i err err' :
  (i + n = length (entries (dns_data cfg)))%nat →
  result (put_loop cfg payload records env n i err) = Ok err' →
  length (puts_of (trace (put_loop cfg payload records env n i err))) = n
  ∧ err' = err || any_failed env i n.
Proof.
  revert i err.
  induction n as [|n IH]; intros i err Hlen.
  { simpl. intros [= <-]. by rewrite orb_false_r. }
  destruct (lookup_lt_is_Some_2 (entries (dns_data cfg)) i) as [e He];
    [lia|].
  destruct (vectors_at i e He) as (j & Hmk & Hp & Hr & _).
  simpl put_loop. rewrite Hr, Hp. unfold lift, emit.
  repeat (rewrite result_bind; simpl). repeat (rewrite trace_bind; simpl).
  destruct (json_dump j) as [body|] eqn:Hb; simpl; [|done].
  rewrite puts_of_app, handle_reply_puts. simpl.
  destruct (result (handle_reply cfg (post env i) i err)) as [e1|] eqn:Hh;
    [|done].
  intros H. destruct (IH (S i) e1 ltac:(lia) H) as [Hn ->].
  rewrite Hn. split; [done|].
  rewrite (handle_reply_Ok _ _ _ _ _ Hh). unfold any_failed. simpl.
  by rewrite orb_assoc.
Qed.

(** The loop raises no exception when every payload serialises and
    every reply can be logged; a failed update raises none. *)
Lemma put_loop_total n i err :
  (i + n = length (entries (dns_data cfg)))%nat →
  (∀ e, e ∈ entries (dns_data cfg) → ∃ r, request_of cfg ip e = Ok r) →
  replies_loggable cfg env →
  result (put_loop cfg payload records env n i err)
  = Ok (err || any_failed env i n).
Proof.
  intros Hlen Hreq Hlog. revert i err Hlen.
  induction n as [|n IH]; intros i err Hlen.
  { simpl. by rewrite orb_false_r. }
  destruct (lookup_lt_is_Some_2 (entries (dns_data cfg)) i) as [e He];
    [lia|].
  destruct (vectors_at i e He) as (j & Hmk & Hp & Hr & _).
  destruct (Hreq e) as [r Hrq]; [by eapply list_elem_of_lookup_2|].
  destruct (request_of_inv _ _ _ _ Hrq) as (j' & body & Hmk' & Hb & _).
  rewrite Hmk in Hmk'. injection Hmk' as <-.
  simpl put_loop. rewrite Hr, Hp. unfold lift, emit.
  do 3 (rewrite result_bind; simpl). rewrite Hb. simpl.
  rewrite (handle_reply_total cfg (post env i) i err e He).
  2:{ intros Hd H200. apply Hlog; [done| |done].
      apply lookup_lt_is_Some_1. by exists e. }
  rewrite IH by lia. unfold any_failed. simpl. by rewrite orb_assoc.
Qed.

End Batch.

(** *** The cycle *)

Section Changed.

Variables (cfg : Config) (st : State) (env : Env) (ip : string).

Hypothesis resolved : status_code (response env) = 200.
Hypothesis sliced : slice_ip (text (response env)) = Ok ip.
Hypothesis changed : ip ≠ old_ip_address st.

Lemma cycle_changed_trace :
  trace (cycle cfg st env) =
  Get resolver_url :: ClearScreen
  :: Log info "Retrieved new public IP address: {0}" [AStr ip]
  :: match build_requests ip (dns_data cfg) (entries (dns_data cfg)) [] []
     with
     | Ok p => trace (batch_of cfg st env ip p)
     | Throw _ => []
     end.
Proof.
  unfold cycle. rewrite resolved, sliced. simpl.
  apply String.eqb_neq in changed. unfold emit, lift.
  repeat (rewrite trace_bind; simpl). rewrite changed. simpl.
  repeat (rewrite trace_bind; simpl).
  by destruct (build_requests _ _ _ _ _) as [[p r]|].
Qed.

Lemma cycle_changed_result :
  result (cycle cfg st env) =
  match build_requests ip (dns_data cfg) (entries (dns_data cfg)) [] []
  with
  | Ok p => result (batch_of cfg st env ip p)
  | Throw e => Throw e
  end.
Proof.
  unfold cycle. rewrite resolved, sliced. simpl.
  apply String.eqb_neq in changed. unfold emit, lift.
  repeat (rewrite result_bind; simpl). rewrite changed. simpl.
  repeat (rewrite result_bind; simpl).
  by destruct (build_requests _ _ _ _ _) as [[p r]|].
Qed.

Lemma build_requests_vectors p :
  build_requests ip (dns_data cfg) (entries (dns_data cfg)) [] [] = Ok p →
  Forall2 (fun e j => make_payload ip e = Ok j)
    (entries (dns_data cfg)) p.1 ∧
  p.2 = (fun e => dns_record (dns_data cfg) +:+ token e)
          <$> entries (dns_data cfg) ∧
  length p.1 = length (entries (dns_data cfg)).
Proof.
  destruct p as [p r]. intros Hb.
  apply build_requests_Ok in Hb as (js & Hjs & -> & ->). simpl.
  repeat split; [done|]. symmetry. by eapply Forall2_length.
Qed.

(** A request sent by the cycle is the request of the entry at its
    index, also when the cycle is cut short by an exception. *)
Lemma cycle_changed_puts idx r :
  puts_of (trace (cycle cfg st env)) !! idx = Some r →
  ∃ e, entries (dns_data cfg) !! idx = Some e ∧
       request_of cfg ip e = Ok r.
Proof.
  rewrite cycle_changed_trace. simpl.
  destruct (build_requests _ _ _ _ _) as [p|] eqn:Hb; [|done].
  destruct (build_requests_vectors p Hb) as (Hp & Hr & Hn).
  unfold batch_of, emit. rewrite trace_bind, puts_of_app.
  assert (puts_of
            match result (put_loop cfg p.1 p.2 env (length p.1) 0 false)
            with
            | Ok a => trace (mk_M [Flush] (Ok tt);; mret (settle ip a st))
            | Throw _ => []
            end = []) as ->.
  { by destruct (result (put_loop _ _ _ _ _ _ _)). }
  rewrite app_nil_r. intros H.
  apply (put_loop_puts cfg ip env p.1 p.2 Hp Hr (length p.1) 0%nat false);
    [by rewrite Hn|done].
Qed.

(** A cycle that ends has sent the request of every entry, in the
    order of the configuration, and settles on the replies. *)
Lemma cycle_changed_Ok st' :
  result (cycle cfg st env) = Ok st' →
  Forall2 (fun e r => request_of cfg ip e = Ok r)
    (entries (dns_data cfg)) (puts_of (trace (cycle cfg st env))) ∧
  st' = settle ip (any_failed env 0 (length (entries (dns_data cfg)))) st.
Proof.
  intros Hres.
  assert (length (puts_of (trace (cycle cfg st env)))
          = length (entries (dns_data cfg))
          ∧ st' = settle ip (any_failed env 0 (length (entries (dns_data cfg)))) st) as [Hlen Hst].
  { revert Hres. rewrite cycle_changed_result, cycle_changed_trace. simpl.
    destruct (build_requests _ _ _ _ _) as [p|] eqn:Hb; [|done].
    destruct (build_requests_vectors p Hb) as (Hp & Hr & Hn).
    unfold batch_of, emit.
    rewrite result_bind, trace_bind, puts_of_app.
    destruct (result (put_loop _ _ _ _ _ _ _)) as [err|] eqn:Hl; [|done].
    simpl. intros [= <-].
    destruct (put_loop_Ok cfg ip env p.1 p.2 Hp Hr (length p.1) 0%nat
                false err) as [Hk ->]; [by rewrite Hn|done|].
    rewrite length_app, Hk, Hn. simpl. split; [lia|done]. }
  split; [|done].
  apply Forall2_same_length_lookup_2; [by rewrite Hlen|].
  intros i e r He Hr.
  destruct (cycle_changed_puts i r Hr) as (e' & He' & Hrq).
  rewrite He in He'. by injection He' as <-.
Qed.

(** The cycle ends when the requests can be built and the replies
    logged, whether the updates succeed or fail. *)
Lemma cycle_changed_total reqs :
  Forall2 (fun e r => request_of cfg ip e = Ok r)
    (entries (dns_data cfg)) reqs →
  replies_loggable cfg env →
  result (cycle cfg st env) = Ok (settle ip (any_failed env 0 (length (entries (dns_data cfg)))) st).
Proof.
  intros Hreqs Hlog.
  assert (∃ js, Forall2 (fun e j => make_payload ip e = Ok j)
                  (entries (dns_data cfg)) js) as [js Hjs].
  { clear -Hreqs. induction Hreqs as [|e r es rs Hr _ [js IH]].
    - by exists [].
    - destruct (request_of_inv _ _ _ _ Hr) as (j & _ & Hj & _).
      exists (j :: js). by constructor. }
  rewrite cycle_changed_result.
  rewrite (build_requests_total ip (dns_data cfg) _ js [] [] Hjs). simpl.
  unfold batch_of, emit. rewrite result_bind. simpl.
  rewrite (put_loop_total cfg ip env js _ Hjs eq_refl (length js) 0%nat).
  - simpl. do 3 f_equal. symmetry. by eapply Forall2_length.
  - simpl. symmetry. by eapply Forall2_length.
  - intros e He. apply list_elem_of_lookup in He as [i He].
    destruct (Forall2_lookup_l _ _ _ _ _ Hreqs He) as (r & _ & Hr).
    by exists r.
  - done.
Qed.

End Changed.

Lemma cycle_failed cfg st env :
  status_code (response env) ≠ 200 →
  trace (cycle cfg st env) =
    [Get resolver_url;
     Log error "Failed to retrieve public IP address, code: {0}"
       [ALong (status_code (response env))];
     Flush] ∧
  result (cycle cfg st env) = Ok (set_ip_address "invalid" st).
Proof.
  intros H. apply Z.eqb_neq in H. unfold cycle. by rewrite H.
Qed.

Lemma cycle_unchanged cfg st env ip :
  status_code (response env) = 200 →
  slice_ip (text (response env)) = Ok ip →
  ip = old_ip_address st →
  puts_of (trace (cycle cfg st env)) = [] ∧
  gets_of (trace (cycle cfg st env)) = [resolver_url] ∧
  result (cycle cfg st env) = Ok (set_ip_address ip st).
Proof.
  intros H200 Hs Heq. apply String.eqb_eq in Heq.
  unfold cycle. rewrite H200, Hs. simpl. unfold emit, lift, when.
  repeat (rewrite trace_bind, ?result_bind; simpl). rewrite Heq.
  by destruct (DebugOutput cfg).
Qed.

(** The three ways a cycle ends. *)
Lemma cycle_cases cfg st env st' :
  result (cycle cfg st env) = Ok st' →
  (status_code (response env) ≠ 200 ∧ st' = set_ip_address "invalid" st) ∨
  ∃ ip, status_code (response env) = 200 ∧
        slice_ip (text (response env)) = Ok ip ∧
        ((ip = old_ip_address st ∧ st' = set_ip_address ip st) ∨
         (ip ≠ old_ip_address st ∧
          st' = settle ip
                  (any_failed env 0 (length (entries (dns_data cfg)))) st)).
Proof.
  intros Hres.
  destruct (decide (status_code (response env) = 200)) as [H200|H200].
  2:{ left. destruct (cycle_failed cfg st env H200) as [_ H].
      rewrite H in Hres. by injection Hres as <-. }
  right. destruct (slice_ip (text (response env))) as [ip|x] eqn:Hs.
  2:{ revert Hres. unfold cycle. by rewrite H200, Hs. }
  exists ip. do 2 (split; [done|]).
  destruct (decide (ip = old_ip_address st)) as [Heq|Hne].
  - left. destruct (cycle_unchanged cfg st env ip H200 Hs Heq) as (_&_&H).
    rewrite H in Hres. by injection Hres as <-.
  - right. split; [done|].
    by destruct (cycle_changed_Ok cfg st env ip H200 Hs Hne st' Hres).
Qed.

(** A cycle touches neither the anchor nor the flag [first_run]. *)
Lemma cycle_timer cfg st env st' :
  result (cycle cfg st env) = Ok st' →
  timer_start st' = timer_start st ∧ first_run st' = first_run st.
Proof.
  intros H.
  destruct (cycle_cases _ _ _ _ H)
    as [[_ ->]|(ip & _ & _ & [[_ ->]|[_ ->]])]; try done.
  unfold settle. by destruct (any_failed _ _ _).
Qed.

Lemma cycle_starts_with_get cfg st env :
  ∃ tr, trace (cycle cfg st env) = Get resolver_url :: tr.
Proof. unfold cycle, emit. rewrite trace_bind. simpl. eauto. Qed.


(** *** The arithmetic of the timer *)

Lemma digits2_pos_size (p : positive) : digits2_pos p = Pos.size p.
Proof. induction p; simpl; congruence. Qed.

Lemma Zdigits2_bounds (z : Z) :
  0 < z → 2 ^ (Zdigits2 z - 1) ≤ z < 2 ^ Zdigits2 z.
Proof.
  destruct z as [|p|p]; try lia. intros _. simpl. rewrite digits2_pos_size.
  pose proof (Pos.size_gt p) as Hgt. pose proof (Pos.size_le p) as Hle.
  apply Pos2Z.pos_lt_pos in Hgt. apply Pos2Z.pos_le_pos in Hle.
  rewrite Pos2Z.inj_pow in Hgt, Hle.
  replace (Z.pos (Pos.size p)) with (Z.succ (Z.pos (Pos.size p) - 1)) in Hle
    by lia.
  rewrite Z.pow_succ_r in Hle by lia. lia.
Qed.

Lemma Zdigits2_unique (z k : Z) :
  2 ^ (k - 1) ≤ z < 2 ^ k → 0 < k → Zdigits2 z = k.
Proof.
  intros [Hlo Hhi] Hk.
  assert (0 < z) as Hz by (pose proof (Z.pow_pos_nonneg 2 (k - 1)); lia).
  destruct (Zdigits2_bounds z Hz) as [Hlo' Hhi'].
  assert (0 < Zdigits2 z) as Hd by (destruct z; simpl; lia).
  destruct (Z.lt_trichotomy (Zdigits2 z) k) as [Hlt|[Heq|Hgt]]; [|done|].
  - pose proof (Z.pow_le_mono_r 2 (Zdigits2 z) (k - 1)). lia.
  - pose proof (Z.pow_le_mono_r 2 k (Zdigits2 z - 1)). lia.
Qed.

Lemma iter_xO (m d : positive) :
  Z.pos (Pos.iter xO m d) = Z.pos m * 2 ^ Z.pos d.
Proof.
  induction d as [|d IH] using Pos.peano_ind.
  - simpl. lia.
  - rewrite Pos.iter_succ, Pos2Z.inj_succ, Z.pow_succ_r by lia.
    rewrite Pos2Z.inj_xO, IH. lia.
Qed.

Lemma iter_pos_iter {A : Type} (f : A → A) (p : positive) (x : A) :
  SpecFloat.iter_pos f p x = Pos.iter f x p.
Proof.
  revert x. induction p as [p IH|p IH|]; intros x; simpl; [|by rewrite !IH|done].
  by rewrite !IH, <- Pos.iter_swap, <- Pos.iter_swap.
Qed.

Lemma shr_1_double (w : Z) :
  0 < w →
  shr_1 (Build_shr_record (2 * w) false false) = Build_shr_record w false false.
Proof. by destruct w. Qed.

Lemma shr_exact (z : Z) (j : positive) :
  0 < z →
  SpecFloat.iter_pos shr_1 j (Build_shr_record (z * 2 ^ Z.pos j) false false)
  = Build_shr_record z false false.
Proof.
  intros Hz. rewrite iter_pos_iter.
  induction j as [|j IH] using Pos.peano_ind.
  - simpl. replace (z * 2 ^ 1) with (2 * z) by lia. by apply shr_1_double.
  - rewrite Pos.iter_succ_r, Pos2Z.inj_succ, Z.pow_succ_r by lia.
    replace (z * (2 * 2 ^ Z.pos j)) with (2 * (z * 2 ^ Z.pos j)) by lia.
    rewrite shr_1_double; [done|].
    pose proof (Z.pow_pos_nonneg 2 (Z.pos j)). nia.
Qed.

Lemma fexp_eq (x : Z) :
  -1021 ≤ x → fexp Double.prec Double.emax x = x - 53.
Proof. unfold fexp, emin, Double.prec, Double.emax. lia. Qed.

Lemma Zdigits2_pos (z : Z) : 0 < z → 0 < Zdigits2 z.
Proof. destruct z; simpl; lia. Qed.

Lemma Zdigits2_le (z k : Z) : 0 < z → 0 ≤ k → z < 2 ^ k → Zdigits2 z ≤ k.
Proof.
  intros Hz Hk Hlt. destruct (Zdigits2_bounds z Hz) as [Hlo _].
  destruct (Z.le_gt_cases (Zdigits2 z) k) as [|Hgt]; [done|].
  pose proof (Z.pow_le_mono_r 2 k (Zdigits2 z - 1)). lia.
Qed.

Lemma Zdigits2_shift (z j : Z) :
  0 < z → 0 ≤ j → Zdigits2 (z * 2 ^ j) = Zdigits2 z + j.
Proof.
  intros Hz Hj. destruct (Zdigits2_bounds z Hz) as [Hlo Hhi].
  pose proof (Zdigits2_pos z Hz) as Hk.
  pose proof (Z.pow_pos_nonneg 2 j) as Hp.
  apply Zdigits2_unique; [|lia].
  replace (Zdigits2 z + j - 1) with (Zdigits2 z - 1 + j) by lia.
  rewrite !Z.pow_add_r by lia. nia.
Qed.

(** Rounding a number that fits the mantissa changes nothing. *)
Lemma round_exact (z j : Z) :
  0 < z → z < 2 ^ 53 → 0 ≤ j → 53 ≤ Zdigits2 z + j →
  binary_round_aux Double.prec Double.emax false (z * 2 ^ j) (- j) loc_Exact
  = Double.exact z.
Proof.
  intros Hz Hlt Hj Hd.
  pose proof (Zdigits2_pos z Hz) as Hk.
  pose proof (Zdigits2_le z 53 Hz ltac:(lia) Hlt) as Hk53.
  set (k := Zdigits2 z) in *.
  assert (z * 2 ^ j = z * 2 ^ (53 - k) * 2 ^ (k - 53 + j)) as Hsplit.
  { rewrite <- Z.mul_assoc, <- Z.pow_add_r by lia. f_equal. f_equal. lia. }
  assert (0 < z * 2 ^ (53 - k)) as Hm.
  { pose proof (Z.pow_pos_nonneg 2 (53 - k)). nia. }
  assert (Zdigits2 (z * 2 ^ (53 - k)) = 53) as Hdm.
  { rewrite Zdigits2_shift by lia. fold k. lia. }
  unfold binary_round_aux, shr_fexp.
  rewrite Zdigits2_shift by lia. fold k.
  rewrite fexp_eq by lia.
  assert (shr (shr_record_of_loc (z * 2 ^ j) loc_Exact) (- j)
            (k + j + - j - 53 - - j)
          = (Build_shr_record (z * 2 ^ (53 - k)) false false, k - 53)) as ->.
  { replace (k + j + - j - 53 - - j) with (k - 53 + j) by lia.
    destruct (k - 53 + j) as [|p|p] eqn:Hn; [| |lia].
    - simpl. f_equal; [|lia]. f_equal. rewrite Hsplit. simpl. lia.
    - cbn [shr shr_record_of_loc]. f_equal; [|lia].
      rewrite Hsplit. by apply shr_exact. }
  cbn [shr_m loc_of_shr_record round_nearest_even].
  rewrite Hdm, fexp_eq by lia.
  replace (53 + (k - 53) - 53 - (k - 53)) with 0 by lia.
  cbn [shr shr_record_of_loc shr_m].
  unfold Double.exact. fold k. unfold Double.prec at 2 3.
  destruct (z * 2 ^ (53 - k)) as [|p|p] eqn:Hp; [lia| |lia].
  replace (k - 53 <=? Double.emax - Double.prec) with true; [done|].
  symmetry. apply Z.leb_le. unfold Double.emax, Double.prec. lia.
Qed.

Lemma of_int_exact (z : Z) :
  0 < z → z < 2 ^ 53 → Double.of_int z = Double.exact z.
Proof.
  intros Hz Hlt.
  pose proof (Zdigits2_pos z Hz) as Hk.
  pose proof (Zdigits2_le z 53 Hz ltac:(lia) Hlt) as Hk53.
  destruct z as [|p|p]; [lia| |lia].
  unfold Double.of_int, binary_normalize, binary_round, shl_align.
  change (Z.pos (digits2_pos p)) with (Zdigits2 (Z.pos p)) in *.
  set (k := Zdigits2 (Z.pos p)) in *.
  rewrite fexp_eq by lia.
  destruct (k + 0 - 53 - 0) as [|d|d] eqn:Hd; [|lia|].
  - replace (Z.pos p) with (Z.pos p * 2 ^ 0) at 1 by lia.
    change 0 with (- 0) at 2. apply round_exact; [done|done|lia|fold k; lia].
  - rewrite iter_xO.
    replace (k + 0 - 53) with (- Z.pos d) by lia.
    apply round_exact; [done|done|lia|fold k; lia].
Qed.

Lemma Zdigits2_mul (a b : Z) :
  0 < a → 0 < b → Zdigits2 a + Zdigits2 b - 1 ≤ Zdigits2 (a * b).
Proof.
  intros Ha Hb.
  destruct (Zdigits2_bounds a Ha) as [Hla _].
  destruct (Zdigits2_bounds b Hb) as [Hlb _].
  pose proof (Zdigits2_pos a Ha). pose proof (Zdigits2_pos b Hb).
  assert (0 < a * b) as Hab by nia.
  destruct (Zdigits2_bounds (a * b) Hab) as [_ Hhi].
  destruct (Z.le_gt_cases (Zdigits2 a + Zdigits2 b - 1) (Zdigits2 (a * b)))
    as [|Hgt]; [done|].
  pose proof (Zdigits2_pos (a * b) Hab).
  pose proof (Z.pow_le_mono_r 2 (Zdigits2 (a * b))
                (Zdigits2 a - 1 + (Zdigits2 b - 1)) ltac:(lia) ltac:(lia))
    as Hmono.
  rewrite Z.pow_add_r in Hmono by lia.
  pose proof (Z.pow_pos_nonneg 2 (Zdigits2 a - 1) ltac:(lia) ltac:(lia)).
  pose proof (Z.pow_pos_nonneg 2 (Zdigits2 b - 1) ltac:(lia) ltac:(lia)).
  nia.
Qed.

Lemma exact_mantissa (z : Z) :
  0 < z → z < 2 ^ 53 →
  Z.pos (Z.to_pos (z * 2 ^ (Double.prec - Zdigits2 z)))
  = z * 2 ^ (53 - Zdigits2 z) ∧
  2 ^ 52 ≤ z * 2 ^ (53 - Zdigits2 z) < 2 ^ 53.
Proof.
  intros Hz Hlt.
  pose proof (Zdigits2_pos z Hz) as Hk.
  pose proof (Zdigits2_le z 53 Hz ltac:(lia) Hlt) as Hk53.
  destruct (Zdigits2_bounds z Hz) as [Hlo Hhi].
  unfold Double.prec.
  pose proof (Z.pow_pos_nonneg 2 (53 - Zdigits2 z) ltac:(lia) ltac:(lia)) as Hp.
  assert (2 ^ 52 = 2 ^ (Zdigits2 z - 1) * 2 ^ (53 - Zdigits2 z)) as H52.
  { rewrite <- Z.pow_add_r by lia. f_equal. lia. }
  assert (2 ^ 53 = 2 ^ Zdigits2 z * 2 ^ (53 - Zdigits2 z)) as H53.
  { rewrite <- Z.pow_add_r by lia. f_equal. lia. }
  split; [rewrite Z2Pos.id; nia|]. rewrite H52, H53. nia.
Qed.

Lemma mul_exact (a b : Z) :
  0 < a → 0 < b → a * b < 2 ^ 53 →
  Double.mul (Double.exact a) (Double.exact b) = Double.exact (a * b).
Proof.
  intros Ha Hb Hab.
  assert (a < 2 ^ 53) as Ha53 by nia.
  assert (b < 2 ^ 53) as Hb53 by nia.
  destruct (exact_mantissa a Ha Ha53) as [Hma _].
  destruct (exact_mantissa b Hb Hb53) as [Hmb _].
  pose proof (Zdigits2_le a 53 Ha ltac:(lia) Ha53) as Hka.
  pose proof (Zdigits2_le b 53 Hb ltac:(lia) Hb53) as Hkb.
  pose proof (Zdigits2_mul a b Ha Hb) as Hkab.
  set (r := Double.exact (a * b)).
  unfold Double.mul, SFmul, Double.exact. subst r.
  cbn [xorb]. change IntDef.Z.add with Z.add. change PosDef.Pos.mul with Pos.mul.
  rewrite Pos2Z.inj_mul, Hma, Hmb. unfold Double.prec.
  replace (a * 2 ^ (53 - Zdigits2 a) * (b * 2 ^ (53 - Zdigits2 b)))
    with (a * b * 2 ^ (106 - Zdigits2 a - Zdigits2 b)).
  2:{ replace (106 - Zdigits2 a - Zdigits2 b)
        with (53 - Zdigits2 a + (53 - Zdigits2 b)) by lia.
      rewrite Z.pow_add_r by lia. lia. }
  replace (Zdigits2 a - 53 + (Zdigits2 b - 53))
    with (- (106 - Zdigits2 a - Zdigits2 b)) by lia.
  apply round_exact; [nia|done|lia|lia].
Qed.

Lemma loc_of_shr_record_of_loc (m : Z) (l : location) :
  loc_of_shr_record (shr_record_of_loc m l) = l.
Proof. by destruct l as [|[]]. Qed.

Lemma shr_m_of_loc (m : Z) (l : location) :
  shr_m (shr_record_of_loc m l) = m.
Proof. by destruct l as [|[]]. Qed.

Lemma round_nearest_even_bounds (m : Z) (l : location) :
  m ≤ round_nearest_even m l ≤ m + 1.
Proof. destruct l as [|[]]; simpl; try lia. destruct (Z.even m); lia. Qed.

(** One shift to the right halves the mantissa; the bit shifted out of an
    even mantissa is zero, and rounding then leaves the half as it is. *)
Lemma shr_1_spec (q : Z) (l : location) :
  0 < q →
  shr_m (shr_1 (shr_record_of_loc q l)) = q / 2 ∧
  (Z.even q = true →
   round_nearest_even (q / 2)
     (loc_of_shr_record (shr_1 (shr_record_of_loc q l))) = q / 2).
Proof.
  intros Hq. rewrite <- Z.div2_div.
  destruct q as [|[p|p|]|]; try lia; destruct l as [|[]]; by simpl.
Qed.

(** The last step of [binary_round_aux], on a mantissa of 53 bits, or on
    the 54-bit mantissa a rounding upwards can produce. *)
Lemma round_finish (m e : Z) :
  2 ^ 52 ≤ m ≤ 2 ^ 53 → -1000 ≤ e ≤ 900 →
  ∃ m' e',
    (let '(mrs, e'') := shr_fexp Double.prec Double.emax m e loc_Exact in
     match shr_m mrs with
     | 0 => S754_zero false
     | Z.pos p =>
         if e'' <=? Double.emax - Double.prec then S754_finite false p e''
         else S754_infinity false
     | Z.neg _ => S754_nan
     end) = S754_finite false m' e' ∧
    2 ^ 52 ≤ Z.pos m' < 2 ^ 53 ∧ e ≤ e' ∧ Z.pos m' * 2 ^ (e' - e) = m.
Proof.
  intros Hm He. unfold shr_fexp.
  destruct (decide (m = 2 ^ 53)) as [->|Hne].
  - change (Zdigits2 (2 ^ 53)) with 54. rewrite fexp_eq by lia.
    replace (54 + e - 53 - e) with 1 by lia.
    change (2 ^ 53) with 9007199254740992.
    cbn [shr shr_record_of_loc SpecFloat.iter_pos shr_1 shr_m].
    exists 4503599627370496%positive, (e + 1).
    replace (e + 1 <=? Double.emax - Double.prec) with true
      by (symmetry; apply Z.leb_le; unfold Double.emax, Double.prec; lia).
    split; [done|]. split; [lia|]. split; [lia|].
    replace (e + 1 - e) with 1 by lia. lia.
  - rewrite (Zdigits2_unique m 53) by lia. rewrite fexp_eq by lia.
    replace (53 + e - 53 - e) with 0 by lia.
    cbn [shr shr_record_of_loc shr_m].
    destruct m as [|p|p]; [lia| |lia]. exists p, e.
    replace (e <=? Double.emax - Double.prec) with true
      by (symmetry; apply Z.leb_le; unfold Double.emax, Double.prec; lia).
    split; [done|]. split; [lia|]. split; [lia|].
    replace (e - e) with 0 by lia. lia.
Qed.

(** Rounding a quotient of 53 or 54 bits: the result is a normal number,
    and it lies on the same side of every even number as the quotient
    does, unless the quotient is just below that number. *)
Lemma round_aux_spec (q e : Z) (l : location) :
  2 ^ 52 ≤ q < 2 ^ 54 → -1000 ≤ e ≤ 800 →
  ∃ m' e',
    binary_round_aux Double.prec Double.emax false q e l
    = S754_finite false m' e' ∧
    2 ^ 52 ≤ Z.pos m' < 2 ^ 53 ∧ e ≤ e' ∧
    ∀ Y, Z.even Y = true →
         (Y ≤ q → Y ≤ Z.pos m' * 2 ^ (e' - e)) ∧
         (q ≤ Y - 2 → Z.pos m' * 2 ^ (e' - e) < Y).
Proof.
  intros Hq He. unfold binary_round_aux.
  destruct (Z.lt_ge_cases q (2 ^ 53)) as [Hlt|Hge].
  - assert (shr_fexp Double.prec Double.emax q e l
            = (shr_record_of_loc q l, e)) as ->.
    { unfold shr_fexp. rewrite (Zdigits2_unique q 53) by lia.
      rewrite fexp_eq by lia. by replace (53 + e - 53 - e) with 0 by lia. }
    rewrite shr_m_of_loc, loc_of_shr_record_of_loc.
    pose proof (round_nearest_even_bounds q l) as Hr.
    destruct (round_finish (round_nearest_even q l) e ltac:(lia) ltac:(lia))
      as (m' & e' & -> & Hm' & He' & Hv).
    exists m', e'. do 3 (split; [done|]). intros Y _. rewrite Hv. lia.
  - assert (shr_fexp Double.prec Double.emax q e l
            = (shr_1 (shr_record_of_loc q l), e + 1)) as ->.
    { unfold shr_fexp. rewrite (Zdigits2_unique q 54) by lia.
      rewrite fexp_eq by lia. by replace (54 + e - 53 - e) with 1 by lia. }
    destruct (shr_1_spec q l ltac:(lia)) as [-> Heven].
    pose proof (round_nearest_even_bounds (q / 2)
                  (loc_of_shr_record (shr_1 (shr_record_of_loc q l)))) as Hr.
    set (mr := round_nearest_even (q / 2) _) in *.
    assert (2 ^ 52 ≤ q / 2 < 2 ^ 53) as Hh.
    { change (2 ^ 54) with (2 ^ 53 * 2) in Hq.
      change (2 ^ 53) with (2 ^ 52 * 2) in Hge.
      split; [apply Z.div_le_lower_bound; lia|apply Z.div_lt_upper_bound; lia]. }
    destruct (round_finish mr (e + 1) ltac:(lia) ltac:(lia))
      as (m' & e' & -> & Hm' & He' & Hv).
    exists m', e'. do 2 (split; [done|]). split; [lia|].
    intros Y HY.
    replace (e' - e) with (Z.succ (e' - (e + 1))) by lia.
    rewrite Z.pow_succ_r by lia.
    replace (Z.pos m' * (2 * 2 ^ (e' - (e + 1))))
      with (2 * (Z.pos m' * 2 ^ (e' - (e + 1)))) by lia.
    rewrite Hv.
    pose proof (Z.div_mod q 2 ltac:(lia)) as Hdm.
    pose proof (Z.mod_pos_bound q 2 ltac:(lia)) as Hmod.
    pose proof (Zmod_even q) as Hpar.
    apply Z.even_spec in HY as [Y' ->].
    destruct (Z.even q) eqn:Hqe.
    + specialize (Heven eq_refl). lia.
    + lia.
Qed.

(** The quotient of an integer below [2^53] by the [double] 1000000. *)
Lemma div_exact_spec (d : Z) :
  0 < d → d < 2 ^ 53 →
  ∃ m e,
    Double.div (Double.exact d) (Double.exact 1000000)
    = S754_finite false m e ∧
    2 ^ 52 ≤ Z.pos m < 2 ^ 53 ∧ Zdigits2 d - 73 ≤ e ∧
    ∀ Y, Z.even Y = true →
         (Y ≤ d * 2 ^ (53 - Zdigits2 d) * 2 ^ 53 / 8589934592000000 →
          Y ≤ Z.pos m * 2 ^ (e - (Zdigits2 d - 73))) ∧
         (d * 2 ^ (53 - Zdigits2 d) * 2 ^ 53 / 8589934592000000 ≤ Y - 2 →
          Z.pos m * 2 ^ (e - (Zdigits2 d - 73)) < Y).
Proof.
  intros Hd Hlt.
  pose proof (Zdigits2_pos d Hd) as Hk.
  pose proof (Zdigits2_le d 53 Hd ltac:(lia) Hlt) as Hk53.
  destruct (exact_mantissa d Hd Hlt) as [Hm Hm53].
  set (k := Zdigits2 d) in *. set (m1 := d * 2 ^ (53 - k)) in *.
  change (Double.exact 1000000)
    with (S754_finite false 8589934592000000 (-33)).
  unfold Double.exact. fold k. unfold Double.div, SFdiv. cbn [xorb].
  assert (SFdiv_core_binary Double.prec Double.emax
            (Z.pos (Z.to_pos (d * 2 ^ (Double.prec - k)))) (k - Double.prec)
            8589934592000000 (-33)
          = (m1 * 2 ^ 53 / 8589934592000000, k - 73,
             new_location 8589934592000000
               ((m1 * 2 ^ 53) mod 8589934592000000))) as ->.
  { unfold SFdiv_core_binary. rewrite Hm.
    rewrite (Zdigits2_unique m1 53) by lia.
    change (Zdigits2 8589934592000000) with 53.
    unfold Double.prec.
    change (fexp 53 Double.emax) with (fexp Double.prec Double.emax).
    rewrite fexp_eq by lia.
    rewrite Z.min_l by lia.
    replace (k - 53 - -33 - (53 + (k - 53) - (53 + -33) - 53)) with 53 by lia.
    rewrite Z.shiftl_mul_pow2 by lia.
    unfold Z.div, Z.modulo.
    destruct (Z.div_eucl (m1 * 2 ^ 53) 8589934592000000) as [q r].
    f_equal. f_equal. lia. }
  pose proof (Z.mul_div_le (m1 * 2 ^ 53) 8589934592000000 ltac:(lia)) as Hq1.
  pose proof (Z.mul_succ_div_gt (m1 * 2 ^ 53) 8589934592000000 ltac:(lia))
    as Hq2.
  set (q := m1 * 2 ^ 53 / 8589934592000000) in *.
  change (2 ^ 53) with 9007199254740992 in *.
  change (2 ^ 52) with 4503599627370496 in *.
  destruct (round_aux_spec q (k - 73)
              (new_location 8589934592000000
                 ((m1 * 9007199254740992) mod 8589934592000000)))
    as (m & e & -> & Hm' & He & HY).
  { change (2 ^ 52) with 4503599627370496.
    change (2 ^ 54) with 18014398509481984. lia. }
  { lia. }
  exists m, e. done.
Qed.

(** Comparing two normal numbers compares their values. *)
Lemma ltb_finite (m1 m2 : positive) (e1 e2 s : Z) :
  2 ^ 52 ≤ Z.pos m1 < 2 ^ 53 → 2 ^ 52 ≤ Z.pos m2 < 2 ^ 53 →
  s ≤ e1 → s ≤ e2 →
  Double.ltb (S754_finite false m1 e1) (S754_finite false m2 e2) = true ↔
  Z.pos m1 * 2 ^ (e1 - s) < Z.pos m2 * 2 ^ (e2 - s).
Proof.
  intros H1 H2 Hs1 Hs2. unfold Double.ltb, SFltb, SFcompare.
  change IntDef.Z.compare with Z.compare.
  change (2 ^ 53) with 9007199254740992 in *.
  change (2 ^ 52) with 4503599627370496 in *.
  pose proof (Z.pow_pos_nonneg 2 (e1 - s) ltac:(lia) ltac:(lia)) as Hp1.
  pose proof (Z.pow_pos_nonneg 2 (e2 - s) ltac:(lia) ltac:(lia)) as Hp2.
  destruct (Z.compare_spec e1 e2) as [->|Hlt|Hgt].
  - change (Pos.compare_cont Eq m1 m2) with (Pos.compare m1 m2).
    destruct (Pos.compare_spec m1 m2) as [->|Hlt|Hgt].
    + split; [done|lia].
    + split; [|done]. intros _. apply Pos2Z.pos_lt_pos in Hlt. nia.
    + split; [done|]. apply Pos2Z.pos_lt_pos in Hgt. nia.
  - split; [|done]. intros _.
    replace (e2 - s) with (Z.succ (e2 - e1 - 1) + (e1 - s)) by lia.
    rewrite Z.pow_add_r, Z.pow_succ_r by lia.
    pose proof (Z.pow_pos_nonneg 2 (e2 - e1 - 1) ltac:(lia) ltac:(lia)) as Hp.
    set (a := 2 ^ (e1 - s)) in *. set (b := 2 ^ (e2 - e1 - 1)) in *.
    assert (Z.pos m1 * a < 2 * Z.pos m2 * a) by nia.
    assert (2 * Z.pos m2 * a * 1 ≤ 2 * Z.pos m2 * a * b)
      by (apply Z.mul_le_mono_nonneg_l; lia).
    lia.
  - split; [done|].
    replace (e1 - s) with (Z.succ (e1 - e2 - 1) + (e2 - s)) by lia.
    rewrite Z.pow_add_r, Z.pow_succ_r by lia.
    pose proof (Z.pow_pos_nonneg 2 (e1 - e2 - 1) ltac:(lia) ltac:(lia)) as Hp.
    set (a := 2 ^ (e2 - s)) in *. set (b := 2 ^ (e1 - e2 - 1)) in *.
    assert (Z.pos m2 * a < 2 * Z.pos m1 * a) by nia.
    assert (2 * Z.pos m1 * a * 1 ≤ 2 * Z.pos m1 * a * b)
      by (apply Z.mul_le_mono_nonneg_l; lia).
    lia.
Qed.

(** As long as less than [2^53] nanoseconds (some 104 days) have passed
    since the anchor, the test of line 211 is exact: the loop waits
    exactly when the elapsed time is below the interval. *)
Lemma waiting_exact (rate : Z) (st : State) (env : Env) :
  0 ≤ rate < 2 ^ 32 →
  0 ≤ timer_end env - timer_start st < 2 ^ 53 →
  waiting rate st env = true ↔
  timer_end env - timer_start st < rate * 1000000000.
Proof.
  unfold waiting, elapsed_ms, interval_ms.
  set (d := timer_end env - timer_start st). clearbody d.
  intros Hrate Hd.
  change (2 ^ 32) with 4294967296 in Hrate.
  change (Double.of_int 1000000) with (Double.exact 1000000).
  change (Double.of_int 1000) with (Double.exact 1000).
  destruct (decide (rate = 0)) as [->|Hr0];
    [|rewrite (of_int_exact rate), mul_exact
        by (change (2 ^ 53) with 9007199254740992; lia)];
    (destruct (decide (d = 0)) as [->|Hd0];
     [|rewrite (of_int_exact d) by lia;
       destruct (div_exact_spec d ltac:(lia) ltac:(lia))
         as (m & e & -> & Hm & He & HY)]).
  - split; [done|lia].
  - split; [done|lia].
  - split; [lia|done].
  - destruct (exact_mantissa (rate * 1000) ltac:(lia)
                ltac:(change (2 ^ 53) with 9007199254740992; lia))
      as [Hy Hy53].
    pose proof (Zdigits2_pos d ltac:(lia)) as Hk.
    pose proof (Zdigits2_le d 53 ltac:(lia) ltac:(lia) ltac:(lia)) as Hk53.
    pose proof (Zdigits2_pos (rate * 1000) ltac:(lia)) as Hky.
    pose proof (Zdigits2_le (rate * 1000) 53 ltac:(lia) ltac:(lia)
                  ltac:(change (2 ^ 53) with 9007199254740992; lia)) as Hky53.
    unfold Double.exact.
    rewrite (ltb_finite m _ e _ (Zdigits2 d - 126)); [|done|by rewrite Hy| |];
      [|lia|unfold Double.prec; lia].
    rewrite Hy. unfold Double.prec.
    set (k := Zdigits2 d) in *. set (ky := Zdigits2 (rate * 1000)) in *.
    pose proof (Z.pow_pos_nonneg 2 (53 - k) ltac:(lia) ltac:(lia)) as HP.
    set (P := 2 ^ (53 - k)) in *.
    specialize (HY (rate * 1000 * P * 1048576)).
    destruct HY as [Hge Hlt].
    { rewrite Z.even_mul. apply orb_true_r. }
    replace (e - (k - 126)) with (e - (k - 73) + 53) by lia.
    rewrite Z.pow_add_r by lia.
    replace (rate * 1000 * 2 ^ (53 - ky) * 2 ^ (ky - 53 - (k - 126)))
      with (rate * 1000 * P * 1048576 * 2 ^ 53).
    2:{ rewrite <- (Z.mul_assoc _ (2 ^ (53 - ky))), <- Z.pow_add_r by lia.
        replace (53 - ky + (ky - 53 - (k - 126))) with (53 - k + 73) by lia.
        rewrite Z.pow_add_r by lia. fold P.
        change (2 ^ 73) with (1048576 * 2 ^ 53). lia. }
    set (V := Z.pos m * 2 ^ (e - (k - 73))) in *.
    pose proof (Z.mul_div_le (d * P * 2 ^ 53) 8589934592000000 ltac:(lia))
      as Hq1.
    pose proof (Z.mul_succ_div_gt (d * P * 2 ^ 53) 8589934592000000
                  ltac:(lia)) as Hq2.
    set (q := d * P * 2 ^ 53 / 8589934592000000) in *.
    change (2 ^ 53) with 9007199254740992 in *.
    destruct (Z.lt_ge_cases d (rate * 1000000000)) as [Hlt'|Hge'].
    + assert (d * P ≤ rate * 1000000000 * P - P) by nia.
      assert (rate * 1000000000 * P = rate * 1000 * P * 1000000) by lia.
      split; [lia|]. intros _.
      assert (V < rate * 1000 * P * 1048576) by (apply Hlt; lia). lia.
    + assert (rate * 1000000000 * P ≤ d * P) by nia.
      assert (rate * 1000000000 * P = rate * 1000 * P * 1000000) by lia.
      split; [|lia]. intros HV.
      assert (rate * 1000 * P * 1048576 ≤ V) by (apply Hge; lia). lia.
Qed.


(** *** The iteration and the loop *)

Lemma iteration_first cfg st env :
  first_run st = true →
  iteration cfg st env = cycle cfg (set_first_run false st) env.
Proof. unfold iteration, gate. by intros ->. Qed.

Lemma iteration_waiting cfg st env :
  first_run st = false →
  waiting (update_rate cfg) st env = true →
  iteration cfg st env = mret st.
Proof. intros Hf Hw. unfold iteration, gate. by rewrite Hf, Hw. Qed.

Lemma iteration_due cfg st env :
  first_run st = false →
  waiting (update_rate cfg) st env = false →
  iteration cfg st env =
  cycle cfg (set_timer_start (timer_restart env) st) env.
Proof. intros Hf Hw. unfold iteration, gate. by rewrite Hf, Hw. Qed.

(** An iteration is the cycle on some state with the same addresses, or
    nothing at all. *)
Lemma iteration_cases cfg st env :
  iteration cfg st env = mret st ∨
  ∃ st0, iteration cfg st env = cycle cfg st0 env ∧
         ip_address st0 = ip_address st ∧
         old_ip_address st0 = old_ip_address st ∧
         first_run st0 = false.
Proof.
  destruct (first_run st) eqn:Hf.
  { right. eexists. split; [by apply iteration_first|done]. }
  destruct (waiting (update_rate cfg) st env) eqn:Hw.
  - left. by apply iteration_waiting.
  - right. eexists. split; [by apply iteration_due|done].
Qed.



(** After an iteration the flag [first_run] is down. *)
Lemma iteration_first_run cfg st env st' :
  result (iteration cfg st env) = Ok st' →
  first_run st' = false ∨ (st' = st ∧ first_run st = false).
Proof.
  destruct (first_run st) eqn:Hf.
  - rewrite iteration_first by done. intros H.
    apply cycle_timer in H as [_ ->]. by left.
  - destruct (iteration_cases cfg st env) as [->|(st0 & -> & _ & _ & H0)].
    + intros [= <-]. by right.
    + intros H. apply cycle_timer in H as [_ ->]. by left.
Qed.

Lemma run_first_run cfg st envs st' :
  first_run st = false →
  result (run cfg st envs) = Ok st' → first_run st' = false.
Proof.
  revert st. induction envs as [|env envs IH]; intros st Hf; simpl.
  { by intros [= <-]. }
  rewrite result_bind.
  destruct (result (iteration cfg st env)) as [st1|] eqn:H1; [|done].
  apply IH. by destruct (iteration_first_run _ _ _ _ H1) as [?|[-> ?]].
Qed.

(** *** Failures within a batch *)

Lemma any_failed_true env i n :
  any_failed env i n = true ↔
  ∃ k, (i ≤ k < i + n)%nat ∧ status_code (post env k) ≠ 200.
Proof.
  unfold any_failed, failed. rewrite existsb_exists. split.
  - intros (k & Hin & Hk). exists k. apply in_seq in Hin.
    apply negb_true_iff, Z.eqb_neq in Hk. done.
  - intros (k & Hin & Hk). exists k. split; [by apply in_seq|].
    by apply negb_true_iff, Z.eqb_neq.
Qed.

Lemma any_failed_false env i n :
  any_failed env i n = false ↔
  ∀ k, (i ≤ k < i + n)%nat → status_code (post env k) = 200.
Proof.
  rewrite <- not_true_iff_false, any_failed_true. split.
  - intros H k Hk.
    destruct (decide (status_code (post env k) = 200)); [done|].
    destruct H. by exists k.
  - intros H (k & Hk & Hne). by apply Hne, H.
Qed.


(** ** The claims *)



(** C3.  A cycle in which the resolver succeeds and the sliced address
    equals the baseline sends no update and changes nothing in the state
    but [ip_address]; the same holds for any number of such cycles in a
    row, with or without waiting iterations in between. *)
Theorem unchanged_address_is_idle cfg st envs :
  Forall (fun env => status_code (response env) = 200 ∧
                     slice_ip (text (response env))
                     = Ok (old_ip_address st)) envs →
  puts_of (trace (cycles cfg st envs)) = [] ∧
  result (cycles cfg st envs)
  = Ok (match envs with
        | [] => st
        | _ :: _ => set_ip_address (old_ip_address st) st
        end) ∧
  puts_of (trace (run cfg st envs)) = [] ∧
  ∃ st', result (run cfg st envs) = Ok st' ∧
         old_ip_address st' = old_ip_address st.
Proof.
  intros Hall.
  assert (∀ st0, old_ip_address st0 = old_ip_address st →
            puts_of (trace (cycles cfg st0 envs)) = [] ∧
            result (cycles cfg st0 envs)
            = Ok (match envs with
                  | [] => st0
                  | _ :: _ => set_ip_address (old_ip_address st) st0
                  end)) as Hcycles.
  { induction Hall as [|env envs [H200 Hs] _ IH]; intros st0 Hold; [done|].
    destruct (cycle_unchanged cfg st0 env _ H200 Hs (eq_sym Hold))
      as (Hp & _ & Hr).
    cbn [cycles]. rewrite trace_bind, result_bind, puts_of_app, Hp, Hr.
    cbn [app].
    destruct (IH (set_ip_address (old_ip_address st) st0) Hold) as [Hp' Hr'].
    rewrite Hp', Hr'. split; [done|]. by destruct envs. }
  assert (∀ st0, old_ip_address st0 = old_ip_address st →
            puts_of (trace (run cfg st0 envs)) = [] ∧
            ∃ st', result (run cfg st0 envs) = Ok st' ∧
                   old_ip_address st' = old_ip_address st) as Hrun.
  { clear Hcycles. induction Hall as [|env envs [H200 Hs] _ IH]; intros st0 Hold.
    { split; [done|]. by exists st0. }
    cbn [run]. rewrite trace_bind, result_bind, puts_of_app.
    destruct (iteration_cases cfg st0 env)
      as [->|(st1 & -> & _ & Hold1 & _)].
    - simpl. by apply IH.
    - rewrite Hold in Hold1.
      destruct (cycle_unchanged cfg st1 env _ H200 Hs (eq_sym Hold1))
        as (Hp & _ & Hr).
      rewrite Hp, Hr. cbn [app]. by apply IH. }
  destruct (Hcycles st eq_refl) as [H1 H2].
  destruct (Hrun st eq_refl) as [H3 H4]. done.
Qed.


(** C5, as amended.  The first iteration ([first_run] is up) runs the
    cycle whatever the clock reads and leaves the anchor [timer_start] as
    it is.  On every other iteration the cycle is run only when the test
    of line 211 fails, that is when the elapsed time, as a [double] number
    of milliseconds, is not below [update_rate] times 1000.0: while the
    test holds the iteration does nothing at all, and when the cycle is
    run the anchor is set to the clock.  As long as less than [2^53]
    nanoseconds have passed since the anchor the test is exact: it holds
    exactly when the elapsed time is below [update_rate] seconds.
    [update_rate] is 30 when the command line has no [-r]. *)
Theorem polling_gate cfg st env :
  (first_run st = true →
   (∃ tr, trace (iteration cfg st env) = Get resolver_url :: tr) ∧
   ∀ st', result (iteration cfg st env) = Ok st' →
          timer_start st' = timer_start st) ∧
  (first_run st = false →
   (waiting (update_rate cfg) st env = true →
    trace (iteration cfg st env) = [] ∧
    result (iteration cfg st env) = Ok st) ∧
   (gets_of (trace (iteration cfg st env)) ≠ [] →
    waiting (update_rate cfg) st env = false) ∧
   (waiting (update_rate cfg) st env = false →
    (∃ tr, trace (iteration cfg st env) = Get resolver_url :: tr) ∧
    ∀ st', result (iteration cfg st env) = Ok st' →
           timer_start st' = timer_restart env)) ∧
  (0 ≤ update_rate cfg < 2 ^ 32 →
   0 ≤ timer_end env - timer_start st < 2 ^ 53 →
   (waiting (update_rate cfg) st env = true ↔
    timer_end env - timer_start st < update_rate cfg * 1000000000)) ∧
  (∀ argv : list string, "-r" ∉ argv → update_rate_of argv = Some 30).
Proof.
  split; [|split; [|split]].
  - intros Hf. rewrite iteration_first by done.
    split; [apply cycle_starts_with_get|].
    intros st' Hres. by apply cycle_timer in Hres as [-> _].
  - intros Hf. split; [|split].
    + intros Hw. by rewrite iteration_waiting.
    + intros Hget. destruct (waiting (update_rate cfg) st env) eqn:Hw; [|done].
      by rewrite iteration_waiting in Hget.
    + intros Hw. rewrite iteration_due by done.
      split; [apply cycle_starts_with_get|].
      intros st' Hres. by apply cycle_timer in Hres as [-> _].
  - apply waiting_exact.
  - intros argv Hr. unfold update_rate_of, CmdOptionExists.
    by rewrite bool_decide_eq_false_2.
Qed.

(** C9.  The first iteration after the start does not look at the clock:
    it calls the resolver at once and leaves the anchor as [main] set it.
    It lowers [first_run], which stays down, so that from the second
    iteration on the cycle is run exactly when the test of line 211, which
    compares the elapsed time with [update_rate], fails: as long as less
    than [2^53] nanoseconds have passed since the anchor, exactly when
    the elapsed time has reached [update_rate] seconds. *)
Theorem first_iteration_is_immediate cfg now env :
  (∃ tr, trace (iteration cfg (initial_state now) env)
         = Get resolver_url :: tr) ∧
  (∀ st', result (iteration cfg (initial_state now) env) = Ok st' →
          first_run st' = false ∧ timer_start st' = now) ∧
  (∀ envs st env',
     result (run cfg (initial_state now) (env :: envs)) = Ok st →
     first_run st = false ∧
     (gets_of (trace (iteration cfg st env')) ≠ [] ↔
      waiting (update_rate cfg) st env' = false) ∧
     (0 ≤ update_rate cfg < 2 ^ 32 →
      0 ≤ timer_end env' - timer_start st < 2 ^ 53 →
      (gets_of (trace (iteration cfg st env')) ≠ [] ↔
       update_rate cfg * 1000000000 ≤ timer_end env' - timer_start st))).
Proof.
  rewrite iteration_first by done. split; [apply cycle_starts_with_get|].
  split.
  { intros st' H. by apply cycle_timer in H as [-> ->]. }
  intros envs st env'. cbn [run].
  rewrite result_bind, (iteration_first cfg (initial_state now) env) by done.
  destruct (result (cycle _ _ _)) as [st1|] eqn:H1; [|done].
  apply cycle_timer in H1 as [_ H1]. intros Hrun.
  pose proof (run_first_run cfg st1 envs st H1 Hrun) as Hf.
  split; [done|].
  assert (gets_of (trace (iteration cfg st env')) ≠ [] ↔
          waiting (update_rate cfg) st env' = false) as Hgate.
  { split.
    - intros Hget.
      destruct (waiting (update_rate cfg) st env') eqn:Hw; [|done].
      by rewrite iteration_waiting in Hget.
    - intros Hw. rewrite iteration_due by done.
      destruct (cycle_starts_with_get cfg
                  (set_timer_start (timer_restart env') st) env') as [tr ->].
      done. }
  split; [done|]. intros Hrate Hclock.
  pose proof (waiting_exact (update_rate cfg) st env' Hrate Hclock) as Hexact.
  rewrite Hgate, <- not_true_iff_false, Hexact. lia.
Qed.

Lemma make_payload_inv ip e j :
  make_payload ip e = Ok j →
  ∃ b n, stob (proxied e) false = Ok b ∧ CLocale.stoi (ttl e) = Ok n ∧
    j = {[ "content" := JString ip;
           "name" := JString (prefix e);
           "proxied" := JBool b;
           "type" := JString (type e);
           "comment" := JString (comment e);
           "id" := JString (token e);
           "ttl" := JInt n ]}.
Proof.
  unfold make_payload.
  destruct (stob (proxied e) false) as [b|]; simpl; [|done].
  destruct (CLocale.stoi (ttl e)) as [n|]; simpl; [|done].
  intros [= <-]. by exists b, n.
Qed.

(** C6.  The request sent for an entry whose [ttl] converts to the
    integer [n] goes to the base record path followed by the token of
    the entry, carries the bearer credential of the configuration, and
    its body is the serialisation of the JSON object with exactly the
    seven fields content (the new address), name (the prefix), proxied
    (the flag read by [stob]), type, comment, id (the token) and ttl
    ([n]). *)
Theorem update_request_shape cfg st env ip idx e n r :
  status_code (response env) = 200 →
  slice_ip (text (response env)) = Ok ip →
  ip ≠ old_ip_address st →
  entries (dns_data cfg) !! idx = Some e →
  CLocale.stoi (ttl e) = Ok n →
  puts_of (trace (cycle cfg st env)) !! idx = Some r →
  put_url r = dns_record (dns_data cfg) +:+ token e ∧
  put_bearer r = dns_token (dns_data cfg) ∧
  put_content_type r = "application/json" ∧
  ∃ (b : bool) (j : json_object),
    stob (proxied e) false = Ok b ∧
    json_dump j = Ok (put_body r) ∧
    j = {[ "content" := JString ip;
           "name" := JString (prefix e);
           "proxied" := JBool b;
           "type" := JString (type e);
           "comment" := JString (comment e);
           "id" := JString (token e);
           "ttl" := JInt n ]} ∧
    dom j = ({[ "content"; "name"; "proxied"; "type"; "comment"; "id";
                "ttl" ]} : gset string).
Proof.
  intros H200 Hs Hne He Hn Hr.
  destruct (cycle_changed_puts cfg st env ip H200 Hs Hne idx r Hr)
    as (e' & He' & Hrq).
  rewrite He in He'. injection He' as <-.
  destruct (request_of_inv _ _ _ _ Hrq) as (j & body & Hj & Hb & ->).
  destruct (make_payload_inv _ _ _ Hj) as (b & n' & Hstob & Hn' & ->).
  rewrite Hn in Hn'. injection Hn' as <-.
  do 3 (split; [done|]). exists b. eexists. do 3 (split; [done|]).
  rewrite !dom_insert_L, dom_singleton_L. set_solver.
Qed.

Lemma all_fail_loggable cfg env :
  (∀ k, status_code (post env k) ≠ 200) → replies_loggable cfg env.
Proof. intros H _ k _ H200. by destruct (H k). Qed.




End Loop.

(** ** Strings *)

Lemma substring_length (s : string) (n m : nat) :
  (n + m ≤ String.length s)%nat →
  String.length (String.substring n m s) = m.
Proof.
  revert n m. induction s as [|c s IH]; intros n m Hle; simpl in Hle.
  - assert (n = 0 ∧ m = 0)%nat as [-> ->] by lia. done.
  - destruct n as [|n]; simpl.
    + destruct m as [|m]; [done|]. simpl. rewrite (IH 0%nat m); [done|lia].
    + apply IH. lia.
Qed.

Lemma substring_substring (s : string) (n m k : nat) :
  (k ≤ m)%nat →
  String.substring 0 k (String.substring n m s) = String.substring n k s.
Proof.
  revert n m k. induction s as [|c s IH]; intros n m k Hle.
  - destruct n, m, k; done.
  - destruct n as [|n]; simpl.
    + destruct m as [|m], k as [|k]; try done; [lia|].
      simpl. rewrite (IH 0%nat m k); [done|lia].
    + by apply IH.
Qed.

Lemma substring_app (x y : string) :
  String.substring 0 (String.length x) (x +:+ y) = x.
Proof. induction x as [|c x IH]; simpl; [by destruct y|by rewrite IH]. Qed.

Lemma length_append (x y : string) :
  String.length (x +:+ y) = (String.length x + String.length y)%nat.
Proof. induction x as [|c x IH]; simpl; [done|by rewrite IH]. Qed.

Lemma find_char_lt (c : ascii) (s : string) (p : nat) :
  StdString.find_char c s = Some p → (p < String.length s)%nat.
Proof.
  revert p. induction s as [|d s IH]; intros p; simpl; [done|].
  destruct (Ascii.eqb d c).
  - intros [= <-]. lia.
  - destruct (StdString.find_char c s) as [q|]; [|done].
    intros [= <-]. specialize (IH q eq_refl). lia.
Qed.

Lemma substr_in_range (s : string) (pos count : Z) :
  pos ≤ StdString.size s →
  StdString.substr s pos count
  = Ok (String.substring (Z.to_nat pos)
          (Z.to_nat (Z.min count (StdString.size s - pos))) s).
Proof.
  intros H. unfold StdString.substr.
  by destruct (Z.ltb_spec (StdString.size s) pos); [lia|].
Qed.

(** The slice, for a reply with a colon and at least two characters after
    the start of the slice. *)
Lemma slice_ip_long (body : string) (p : nat) :
  StdString.size body < StdString.SIZE_MODULUS →
  StdString.find_char ":" body = Some p →
  (p + 4 ≤ String.length body)%nat →
  slice_ip body
  = Ok (String.substring (p + 2) (String.length body - (p + 4)) body).
Proof.
  unfold StdString.size, StdString.SIZE_MODULUS. intros Hsize Hfind Hlen.
  unfold slice_ip, StdString.find_first_of. rewrite Hfind.
  unfold StdString.size_wrap, StdString.npos, StdString.SIZE_MODULUS.
  rewrite Z.mod_small by lia.
  rewrite substr_in_range by (unfold StdString.size; lia).
  unfold StdString.size. rewrite Z.min_r by lia.
  replace (Z.to_nat (Z.of_nat p + 2)) with (p + 2)%nat by lia.
  replace (Z.to_nat (Z.of_nat (String.length body) - (Z.of_nat p + 2)))
    with (String.length body - (p + 2))%nat by lia.
  unfold mbind, Exc_bind.
  rewrite substr_in_range by (unfold StdString.size; lia).
  unfold StdString.size. rewrite substring_length by lia.
  rewrite Z.mod_small by lia. rewrite Z.min_l by lia.
  replace (Z.to_nat 0) with 0%nat by done.
  replace (Z.to_nat (Z.of_nat (String.length body - (p + 2)) - 2))
    with (String.length body - (p + 4))%nat by lia.
  by rewrite substring_substring by lia.
Qed.

Lemma ipify_body_eq (x : string) :
  ipify_body x
  = String "{" (String "034" (String "i" (String "p" (String "034"
      (String ":" (String "034"
         (x +:+ String "034" (String "}" EmptyString)))))))).
Proof. reflexivity. Qed.

(** C10, as amended.  With status 200 the address is cut out of the body
    of the reply without any validation.  For a body whose first colon is
    at index [p] and that has at least [p + 4] characters, it is the
    characters from index [p + 2] up to the last two, which are dropped; so
    for the body built around the address [x] by [ipify_body] it is [x].
    Whatever the slice is, a cycle that finds it different from the
    baseline goes on with it as the new address. *)
Theorem resolver_reply_slicing (body : string) :
  StdString.size body < StdString.SIZE_MODULUS →
  (∀ p : nat,
     StdString.find_char ":" body = Some p →
     (p + 4 ≤ String.length body)%nat →
     slice_ip body
     = Ok (String.substring (p + 2) (String.length body - (p + 4)) body)) ∧
  (∀ x, body = ipify_body x → slice_ip body = Ok x) ∧
  (∀ json_dump json_pretty cfg st env ip,
     status_code (response env) = 200 →
     text (response env) = body →
     slice_ip body = Ok ip →
     ip ≠ old_ip_address st →
     ∃ tr, trace (cycle json_dump json_pretty cfg st env)
           = Get resolver_url :: ClearScreen
             :: Log info "Retrieved new public IP address: {0}" [AStr ip]
             :: tr).
Proof.
  intros Hsize. split; [|split].
  - intros p. by apply slice_ip_long.
  - intros x ->. rewrite ipify_body_eq in *.
    rewrite (slice_ip_long _ 5); [|done|done|].
    + cbn [String.length Nat.add Nat.sub String.substring].
      rewrite length_append. cbn [String.length].
      replace (String.length x + 2 - 2)%nat with (String.length x) by lia.
      by rewrite substring_app.
    + cbn [String.length]. rewrite length_append. cbn [String.length]. lia.
  - intros json_dump json_pretty cfg st env ip H200 Hbody Hs Hne.
    rewrite <- Hbody in Hs.
    rewrite (cycle_changed_trace json_dump json_pretty cfg st env ip H200 Hs
               Hne).
    eauto.
Qed.

(** C7.  The lenient parse never throws, but its fallback is not always
    [false]: the text "2" converts neither as a number (the strict parse
    rejects it) nor as a name, and the lenient parse of it is [true]. *)
Theorem stob_lenient_two :
  stob "2" false = Ok true ∧ stob "2" true = Throw invalid_argument.
Proof. split; reflexivity. Qed.

(** With [throw_on_error] off, [stob] does not throw. *)
Lemma stob_lenient_total (s : string) : ∃ b, stob s false = Ok b.
Proof.
  unfold stob.
  destruct (IStream.extract_bool (IStream.open s) false) as [i1 b1].
  destruct (IStream.fail i1).
  - destruct (IStream.extract_bool _ b1) as [i2 b2].
    rewrite andb_false_r. by exists b2.
  - rewrite andb_false_r. by exists b1.
Qed.

(** What the strict parse answers, the lenient parse answers too. *)
Lemma stob_strict_agrees (s : string) (b : bool) :
  stob s true = Ok b → stob s false = Ok b.
Proof.
  unfold stob.
  destruct (IStream.extract_bool (IStream.open s) false) as [i1 b1].
  destruct (IStream.fail i1) eqn:H1.
  - destruct (IStream.extract_bool _ b1) as [i2 b2].
    by destruct (IStream.fail i2).
  - by rewrite H1.
Qed.

(** ** The claims on the sample inputs *)



(** C3 on three cycles in a row that resolve the baseline. *)
Lemma unchanged_address_is_idle_witness :
  Forall (fun env => status_code (response env) = 200 ∧
                     slice_ip (text (response env))
                     = Ok (old_ip_address Sample.fresh))
    [Sample.unchanged; Sample.unchanged; Sample.unchanged] ∧
  puts_of (trace (cycles Sample.dump Sample.pretty Sample.cfg Sample.fresh
                    [Sample.unchanged; Sample.unchanged; Sample.unchanged]))
  = [] ∧
  result (cycles Sample.dump Sample.pretty Sample.cfg Sample.fresh
            [Sample.unchanged; Sample.unchanged; Sample.unchanged])
  = Ok (set_ip_address "0.0.0.0" Sample.fresh).
Proof.
  assert (Forall (fun env => status_code (response env) = 200 ∧
                             slice_ip (text (response env))
                             = Ok (old_ip_address Sample.fresh))
            [Sample.unchanged; Sample.unchanged; Sample.unchanged]) as H
    by (repeat constructor; reflexivity).
  split; [assumption|].
  destruct (unchanged_address_is_idle Sample.dump Sample.pretty Sample.cfg
              Sample.fresh _ H) as (Hp & Hr & _).
  split; assumption.
Defined.


(** C5, as amended, on a reading taken five seconds after the anchor: the
    iteration does nothing. *)
Lemma polling_gate_witness :
  first_run Sample.later = false ∧
  0 ≤ update_rate Sample.cfg < 2 ^ 32 ∧
  0 ≤ timer_end Sample.early - timer_start Sample.later < 2 ^ 53 ∧
  timer_end Sample.early - timer_start Sample.later
  < update_rate Sample.cfg * 1000000000 ∧
  trace (iteration Sample.dump Sample.pretty Sample.cfg Sample.later
           Sample.early) = [] ∧
  result (iteration Sample.dump Sample.pretty Sample.cfg Sample.later
            Sample.early) = Ok Sample.later.
Proof.
  assert (first_run Sample.later = false) as H by reflexivity.
  assert (0 ≤ update_rate Sample.cfg < 2 ^ 32) as Hrate
    by (vm_compute; split; [discriminate|reflexivity]).
  assert (0 ≤ timer_end Sample.early - timer_start Sample.later < 2 ^ 53)
    as Hclock by (vm_compute; split; [discriminate|reflexivity]).
  assert (timer_end Sample.early - timer_start Sample.later
          < update_rate Sample.cfg * 1000000000) as Hlt
    by (vm_compute; reflexivity).
  do 4 (split; [assumption|]).
  destruct (polling_gate Sample.dump Sample.pretty Sample.cfg Sample.later
              Sample.early) as (_ & Hlater & Hexact & _).
  exact (proj1 (Hlater H) (proj2 (Hexact Hrate Hclock) Hlt)).
Defined.

(** With the default interval the test of line 211 is sharp: it holds one
    nanosecond before thirty seconds have elapsed, and fails at thirty
    seconds. *)
Lemma default_interval_is_sharp :
  waiting 30 Sample.later
    (mk_Env 29999999999 30000000000 Sample.ok (fun _ => Sample.ok)) = true ∧
  waiting 30 Sample.later
    (mk_Env 30000000000 30000000001 Sample.ok (fun _ => Sample.ok)) = false.
Proof. split; vm_compute; reflexivity. Qed.

(** C6 on the first request of a batch. *)
Lemma update_request_shape_witness :
  status_code (response Sample.all_ok) = 200 ∧
  slice_ip (text (response Sample.all_ok)) = Ok "1.2.3.4" ∧
  "1.2.3.4" ≠ old_ip_address Sample.fresh ∧
  entries (dns_data Sample.cfg) !! 0%nat = Some Sample.home ∧
  CLocale.stoi (ttl Sample.home) = Ok 120 ∧
  puts_of (trace (cycle Sample.dump Sample.pretty Sample.cfg Sample.fresh
                    Sample.all_ok)) !! 0%nat
  = Some (mk_put_request (Sample.zone +:+ "372e6795") "secret"
            "application/json" "{}") ∧
  put_url (mk_put_request (Sample.zone +:+ "372e6795") "secret"
             "application/json" "{}")
  = dns_record (dns_data Sample.cfg) +:+ token Sample.home.
Proof.
  assert (status_code (response Sample.all_ok) = 200) as H1 by reflexivity.
  assert (slice_ip (text (response Sample.all_ok)) = Ok "1.2.3.4") as H2
    by reflexivity.
  assert ("1.2.3.4" ≠ old_ip_address Sample.fresh) as H3 by discriminate.
  assert (entries (dns_data Sample.cfg) !! 0%nat = Some Sample.home) as H4
    by reflexivity.
  assert (CLocale.stoi (ttl Sample.home) = Ok 120) as H5 by reflexivity.
  assert (puts_of (trace (cycle Sample.dump Sample.pretty Sample.cfg
                            Sample.fresh Sample.all_ok)) !! 0%nat
          = Some (mk_put_request (Sample.zone +:+ "372e6795") "secret"
                    "application/json" "{}")) as H6
    by (vm_compute; reflexivity).
  do 6 (split; [assumption|]).
  exact (proj1 (update_request_shape Sample.dump Sample.pretty Sample.cfg
                  Sample.fresh Sample.all_ok "1.2.3.4" 0%nat Sample.home 120
                  _ H1 H2 H3 H4 H5 H6)).
Defined.


(** C9 on the first iteration of the sample run: the resolver is called
    although no time has elapsed. *)
Lemma first_iteration_is_immediate_witness :
  ∃ tr, trace (iteration Sample.dump Sample.pretty Sample.cfg
                 (initial_state 0) Sample.early) = Get resolver_url :: tr.
Proof.
  exact (proj1 (first_iteration_is_immediate Sample.dump Sample.pretty
                  Sample.cfg 0 Sample.early)).
Defined.

(** C10, as amended, on the reply for 1.2.3.4. *)
Lemma resolver_reply_slicing_witness :
  StdString.size (ipify_body "1.2.3.4") < StdString.SIZE_MODULUS ∧
  slice_ip (ipify_body "1.2.3.4") = Ok "1.2.3.4".
Proof.
  assert (StdString.size (ipify_body "1.2.3.4") < StdString.SIZE_MODULUS)
    as H by (vm_compute; reflexivity).
  split; [assumption|].
  exact (proj1 (proj2 (resolver_reply_slicing _ H)) "1.2.3.4" eq_refl).
Defined.

(** ** Where the claims fail as stated *)

(** C5 as stated fails on the first iteration: five seconds after the
    anchor, with an interval of thirty, the resolver is called, and the
    anchor is not set to the clock. *)
Lemma first_iteration_ignores_interval :
  timer_end Sample.early - timer_start Sample.fresh
  < update_rate Sample.cfg * 1000000000 ∧
  gets_of (trace (iteration Sample.dump Sample.pretty Sample.cfg Sample.fresh
                    Sample.early)) = [resolver_url] ∧
  result (iteration Sample.dump Sample.pretty Sample.cfg Sample.fresh
            Sample.early)
  = Ok (mk_State "1.2.3.4" "1.2.3.4" 0 false) ∧
  timer_start (mk_State "1.2.3.4" "1.2.3.4" 0 false)
  ≠ timer_restart Sample.early.
Proof.
  split; [vm_compute; done|]. split; [vm_compute; reflexivity|].
  split; [vm_compute; reflexivity|discriminate].
Qed.

(** The test of line 211 is made on [double]s: with an interval of
    4294967295 seconds, a reading taken one nanosecond before the interval
    has elapsed does not count as early, and the resolver is called. *)
Lemma rounding_admits_early_cycle :
  first_run Sample.later = false ∧
  timer_end Sample.almost - timer_start Sample.later
  < update_rate Sample.wide_cfg * 1000000000 ∧
  waiting (update_rate Sample.wide_cfg) Sample.later Sample.almost = false ∧
  gets_of (trace (iteration Sample.dump Sample.pretty Sample.wide_cfg
                    Sample.later Sample.almost)) = [resolver_url].
Proof.
  split; [reflexivity|]. split; [vm_compute; done|].
  split; vm_compute; reflexivity.
Qed.



(** C10 as stated fails on short bodies: an empty body has no slice at
    all, the cycle ends by an exception; and a slice of fewer than two
    characters keeps the end of the body. *)
Lemma slice_ip_short_bodies :
  slice_ip "" = Throw out_of_range ∧
  result (cycle Sample.dump Sample.pretty Sample.cfg Sample.fresh
            (mk_Env 0 0 (mk_Response 200 "") (fun _ => Sample.ok)))
  = Throw out_of_range ∧
  slice_ip "a:bc" = Ok "c".
Proof. repeat split; vm_compute; reflexivity. Qed.

(** ** Further properties of the code *)

(** *** The command line *)

Lemma GetCmdOption_app (pre rest : list string) (opt : string) :
  opt ∉ pre → GetCmdOption (pre ++ rest) opt = GetCmdOption rest opt.
Proof.
  induction pre as [|a pre IH]; intros Hnot; [done|].
  apply not_elem_of_cons in Hnot as [Hne Hnot]. simpl.
  destruct (String.eqb_spec a opt) as [->|_]; [done|by apply IH].
Qed.

(** X1.  The value of an option is the argument that follows its first
    occurrence on the command line. *)
Theorem GetCmdOption_value (pre post : list string) (opt v : string) :
  opt ∉ pre →
  GetCmdOption (pre ++ opt :: v :: post) opt = Some v ∧
  CmdOptionExists (pre ++ opt :: v :: post) opt = true.
Proof.
  intros Hnot. split.
  - rewrite GetCmdOption_app by done. simpl. by rewrite String.eqb_refl.
  - apply bool_decide_eq_true_2. set_solver.
Qed.

(** X2.  [GetCmdOption] yields the null pointer in two cases only: the
    option is not on the command line, or its first occurrence is the last
    argument. *)
Theorem GetCmdOption_null (argv : list string) (opt : string) :
  GetCmdOption argv opt = None ↔
  opt ∉ argv ∨ ∃ pre, argv = pre ++ [opt] ∧ opt ∉ pre.
Proof.
  induction argv as [|a argv IH]; simpl.
  { split; [intros _; left; set_solver|done]. }
  destruct (String.eqb_spec a opt) as [->|Hne].
  - destruct argv as [|b argv]; simpl.
    + split; [|done]. intros _. right. exists []. split; [done|set_solver].
    + split; [done|]. intros [Hnot|(pre & Heq & Hnot)]; [set_solver|].
      destruct pre as [|c pre]; [done|].
      injection Heq as -> _. set_solver.
  - rewrite IH. split.
    + intros [Hnot|(pre & -> & Hnot)]; [left; set_solver|].
      right. exists (a :: pre). split; [done|set_solver].
    + intros [Hnot|(pre & Heq & Hnot)]; [left; set_solver|].
      destruct pre as [|c pre].
      * injection Heq as -> _. done.
      * injection Heq as -> ->. right. exists pre. split; [done|set_solver].
Qed.

(** X3.  With [-r] followed by a text, [update_rate] is the number at the
    head of the text, reduced modulo [2^32] when it is negative, and 0 when
    the text does not start with a number. *)
Theorem update_rate_of_value (pre post : list string) (s : string) :
  "-r" ∉ pre →
  (CLocale.strtol_field s = None →
   update_rate_of (pre ++ "-r" :: s :: post) = Some 0) ∧
  (∀ v, CLocale.strtol_field s = Some v →
        CLocale.INT_MIN ≤ v ≤ CLocale.INT_MAX →
        update_rate_of (pre ++ "-r" :: s :: post)
        = Some (if v <? 0 then v + CLocale.UINT_MODULUS else v)).
Proof.
  intros Hnot. unfold update_rate_of.
  assert (CmdOptionExists (pre ++ "-r" :: s :: post) "-r" = true) as ->
    by (apply bool_decide_eq_true_2; set_solver).
  rewrite GetCmdOption_app by done. simpl. split.
  - by intros ->.
  - intros v -> [Hlo Hhi].
    destruct (Z.ltb_spec v CLocale.INT_MIN); [lia|].
    destruct (Z.ltb_spec CLocale.INT_MAX v); [lia|]. simpl. f_equal.
    unfold CLocale.INT_MIN, CLocale.INT_MAX, CLocale.UINT_MODULUS in *.
    destruct (Z.ltb_spec v 0).
    + rewrite <- (Z.mod_add v 1) by lia. rewrite Z.mod_small; lia.
    + rewrite Z.mod_small; lia.
Qed.

(** X5.  When [-r] is the last argument, [atoi] is handed the null
    pointer: [main] has no defined behaviour, and nothing has been logged
    or sent before. *)
Theorem main_rate_without_value json_dump json_pretty
    (pre : list string) (file : data_file) (now : Z) (envs : list Env) :
  "-r" ∉ pre →
  main json_dump json_pretty (pre ++ ["-r"]) file now envs = ([], Undefined).
Proof.
  intros Hnot. unfold main, update_rate_of.
  assert (CmdOptionExists (pre ++ ["-r"]) "-r" = true) as ->
    by (apply bool_decide_eq_true_2; set_solver).
  by rewrite GetCmdOption_app.
Qed.

(** *** [stob] *)

(** X6.  Both modes of [stob] accept the names [true] and [false] followed
    by any text: what follows the name is not looked at. *)
Theorem stob_names (rest : string) (throw_on_error : bool) :
  stob ("true" +:+ rest) throw_on_error = Ok true ∧
  stob ("false" +:+ rest) throw_on_error = Ok false.
Proof.
  change ("true" +:+ rest)
    with (String "t" (String "r" (String "u" (String "e" rest)))).
  change ("false" +:+ rest)
    with (String "f" (String "a" (String "l" (String "s" (String "e" rest))))).
  by destruct rest, throw_on_error.
Qed.

(** X7.  [stob] skips white space at the head of its input. *)
Theorem stob_skips_space (c : ascii) (s : string) (throw_on_error : bool) :
  CLocale.isspace c = true →
  stob (String c s) throw_on_error = stob s throw_on_error.
Proof.
  intros Hc. unfold stob, IStream.extract_bool, IStream.open. simpl.
  by rewrite Hc.
Qed.

(** X8.  The two modes of [stob] differ only in that the strict one throws:
    the lenient mode always answers, the strict mode answers the same when
    it answers, and otherwise throws [std::invalid_argument]. *)
Theorem stob_modes (s : string) :
  ∃ b, stob s false = Ok b ∧
       (stob s true = Ok b ∨ stob s true = Throw invalid_argument).
Proof.
  unfold stob.
  destruct (IStream.extract_bool (IStream.open s) false) as [i1 b1].
  destruct (IStream.fail i1) eqn:H1.
  - destruct (IStream.extract_bool _ b1) as [i2 b2].
    exists b2. rewrite andb_false_r, andb_true_r.
    split; [done|]. destruct (IStream.fail i2); auto.
  - exists b1. rewrite H1. simpl. auto.
Qed.

(** *** The payloads *)

(** X9.  Building the payload of an entry fails only through its [ttl]:
    it throws exactly what [std::stoi] throws on the [ttl], whatever the
    text of the flag [proxied]. *)
Theorem make_payload_throws (ip : string) (entry : DNS_Entry)
    (x : exception) :
  make_payload ip entry = Throw x ↔ CLocale.stoi (ttl entry) = Throw x.
Proof.
  unfold make_payload.
  destruct (stob_lenient_total (proxied entry)) as [b ->]. simpl.
  destruct (CLocale.stoi (ttl entry)) as [n|y]; simpl.
  - split; intros [=].
  - split; by intros [= ->].
Qed.

(** X10.  Once the vectors [payload] and [records] are filled, they hold
    at the index of every entry the payload and the URL of that entry: the
    bounds-checked accesses of the loop that sends the requests find what
    they look for. *)
Theorem vectors_hold_entries (ip : string) (data : CloudflareData)
    (payload : list json_object) (records : list string)
    (i : nat) (entry : DNS_Entry) :
  build_requests ip data (entries data) [] [] = Ok (payload, records) →
  entries data !! i = Some entry →
  length payload = length (entries data) ∧
  length records = length (entries data) ∧
  at_ records i = Ok (dns_record data +:+ token entry) ∧
  ∃ j, at_ payload i = Ok j ∧ make_payload ip entry = Ok j.
Proof.
  intros Hb He. apply build_requests_Ok in Hb as (js & Hjs & -> & ->).
  simpl. split; [symmetry; by eapply Forall2_length|].
  split; [by rewrite length_fmap|]. split.
  - apply at_lookup. by rewrite list_lookup_fmap, He.
  - destruct (Forall2_lookup_l _ _ _ _ _ Hjs He) as (j & Hj & Hmk).
    exists j. split; [by apply at_lookup|done].
Qed.

(** *** The slice of the resolver's reply *)

Lemma substring_all (s : string) :
  String.substring 0 (String.length s) s = s.
Proof. induction s as [|c s IH]; simpl; [done|by rewrite IH]. Qed.

Lemma substr_past_end (s : string) (pos count : Z) :
  StdString.size s < pos → StdString.substr s pos count = Throw out_of_range.
Proof.
  intros H. unfold StdString.substr.
  by destruct (Z.ltb_spec (StdString.size s) pos); [|lia].
Qed.

Lemma slice_from (body : string) (start : nat) :
  StdString.size body < StdString.SIZE_MODULUS →
  (start ≤ String.length body)%nat →
  (sub ← StdString.substr body (Z.of_nat start) StdString.npos;
   StdString.substr sub 0 (StdString.size_wrap (StdString.size sub - 2)))
  = Ok (if (2 <=? String.length body - start)%nat
        then String.substring start (String.length body - start - 2) body
        else String.substring start (String.length body - start) body).
Proof.
  unfold StdString.size, StdString.SIZE_MODULUS. intros Hsize Hstart.
  rewrite substr_in_range by (unfold StdString.size; lia).
  unfold StdString.size, StdString.npos, StdString.SIZE_MODULUS.
  rewrite Z.min_r by lia. rewrite Nat2Z.id.
  replace (Z.to_nat (Z.of_nat (String.length body) - Z.of_nat start))
    with (String.length body - start)%nat by lia.
  unfold mbind, Exc_bind.
  rewrite substr_in_range by (unfold StdString.size; lia).
  unfold StdString.size, StdString.size_wrap, StdString.SIZE_MODULUS.
  rewrite substring_length by lia. f_equal.
  replace (Z.to_nat 0) with 0%nat by done.
  destruct (Nat.leb_spec 2 (String.length body - start)) as [Hge|Hlt].
  - rewrite Z.mod_small by lia. rewrite Z.min_l by lia.
    replace (Z.to_nat (Z.of_nat (String.length body - start) - 2))
      with (String.length body - start - 2)%nat by lia.
    by rewrite substring_substring by lia.
  - rewrite <- (Z.mod_add _ 1) by lia. rewrite Z.mod_small by lia.
    rewrite Z.min_r by lia. rewrite Z.sub_0_r, Nat2Z.id.
    rewrite <- (substring_length body start (String.length body - start))
      at 1 by lia.
    apply substring_all.
Qed.

(** X11.  The slice of every reply.  The slice starts two characters
    after the first colon, or at index 1 when the reply has no colon
    ([npos + 2] wraps around).  A reply that ends before the start throws
    [std::out_of_range]; otherwise the last two characters are dropped,
    unless fewer than two are left, in which case they are all kept
    ([length() - 2] wraps around). *)
Theorem slice_ip_edges (body : string) :
  StdString.size body < StdString.npos →
  let len := String.length body in
  let start :=
    match StdString.find_char ":" body with
    | Some p => (p + 2)%nat
    | None => 1%nat
    end in
  slice_ip body =
  if (len <? start)%nat then Throw out_of_range
  else if (2 <=? len - start)%nat
       then Ok (String.substring start (len - start - 2) body)
       else Ok (String.substring start (len - start) body).
Proof.
  unfold StdString.npos. intros Hnpos. cbv zeta.
  assert (StdString.size body < StdString.SIZE_MODULUS) as Hsize by lia.
  destruct (StdString.find_char ":" body) as [p|] eqn:Hp.
  - pose proof (find_char_lt _ _ _ Hp) as Hlt.
    assert (StdString.size_wrap (StdString.find_first_of body ":" + 2)
            = Z.of_nat (p + 2)) as Hstart.
    { unfold StdString.find_first_of, StdString.size_wrap. rewrite Hp.
      unfold StdString.size, StdString.SIZE_MODULUS in *.
      rewrite Z.mod_small; lia. }
    unfold slice_ip. rewrite Hstart.
    destruct (Nat.ltb_spec (String.length body) (p + 2)) as [Hshort|Hge].
    + by rewrite substr_past_end by (unfold StdString.size; lia).
    + rewrite slice_from by done.
      by destruct (2 <=? String.length body - (p + 2))%nat.
  - assert (StdString.size_wrap (StdString.find_first_of body ":" + 2)
            = Z.of_nat 1) as Hstart.
    { unfold StdString.find_first_of. by rewrite Hp. }
    unfold slice_ip. rewrite Hstart.
    destruct (Nat.ltb_spec (String.length body) 1) as [Hshort|Hge].
    + by rewrite substr_past_end by (unfold StdString.size; lia).
    + rewrite slice_from by done.
      by destruct (2 <=? String.length body - 1)%nat.
Qed.

(** *** The configuration file *)

Lemma read_entries_xml (es : list DNS_Entry) :
  read_entries (map Sample.xml_entry es) = Some es.
Proof.
  induction es as [|[] es IH]; [done|].
  cbn [map read_entries]. by rewrite IH.
Qed.

(** [LoadData] reads back the configuration a well-formed document
    holds. *)
Lemma LoadData_xml (d : CloudflareData) :
  LoadData (document (Sample.xml d))
  = Some (emit (Log info "Loaded DNS entry data file..." []);;
          mret (Some d)).
Proof.
  unfold LoadData, read_document, Sample.xml. simpl.
  rewrite read_entries_xml. by destruct d.
Qed.

(** On a document that lacks an element or an attribute, [LoadData]
    dereferences a null pointer: nothing is known of [main] from there
    on. *)
Lemma LoadData_incomplete :
  LoadData Sample.truncated = None ∧
  LoadData Sample.no_ttl = None ∧
  main Sample.dump Sample.pretty Sample.argv Sample.truncated 0
    [Sample.all_ok]
  = ([Log info banner []], Undefined).
Proof. repeat split; reflexivity. Qed.

(** *** The timer *)

Lemma binary_round_aux_negative (m e : Z) (l : location) :
  Double.negative (binary_round_aux Double.prec Double.emax false m e l)
  = false.
Proof.
  unfold binary_round_aux.
  destruct (shr_fexp _ _ m e l) as [mrs e'].
  destruct (shr_fexp _ _ _ e' loc_Exact) as [mrs' e''].
  destruct (shr_m mrs'); [reflexivity| |reflexivity].
  by destruct (e'' <=? _).
Qed.

Lemma of_int_negative (z : Z) :
  0 ≤ z → Double.negative (Double.of_int z) = false.
Proof.
  intros Hz. destruct z as [|p|p]; [reflexivity| |lia].
  unfold Double.of_int, binary_normalize, binary_round.
  destruct (shl_align _ _) as [mz ez].
  apply binary_round_aux_negative.
Qed.

Lemma div_negative (x : spec_float) (m : positive) (e : Z) :
  Double.negative x = false →
  Double.negative (Double.div x (S754_finite false m e)) = false.
Proof.
  destruct x as [s|s| |s mx ex]; simpl; intros Hx; try (subst; reflexivity).
  subst s. unfold Double.div, SFdiv.
  destruct (SFdiv_core_binary _ _ _ _ _ _) as [[mz ez] lz].
  apply binary_round_aux_negative.
Qed.

Lemma ltb_zero (x : spec_float) :
  Double.negative x = false → Double.ltb x (S754_zero false) = false.
Proof. destruct x as [s|s| |s mx ex]; simpl; intros Hx; subst; reflexivity. Qed.

(** With an interval of zero the loop never waits, unless the clock has
    run backwards. *)
Lemma waiting_zero (st : State) (env : Env) :
  timer_start st ≤ timer_end env → waiting 0 st env = false.
Proof.
  intros Hclock. unfold waiting, elapsed_ms.
  change (interval_ms 0) with (S754_zero false).
  apply ltb_zero.
  change (Double.of_int 1000000)
    with (S754_finite false 8589934592000000 (-33)).
  apply div_negative, of_int_negative. lia.
Qed.

(** *** The loop *)

Section More.

Variable json_dump : json_object → Exc string.
Variable json_pretty : string → Exc string.

Lemma Forall_trace_bind {A B : Type} (P : event → Prop) (m : M A)
    (f : A → M B) :
  Forall P (trace m) →
  (∀ a, result m = Ok a → Forall P (trace (f a))) →
  Forall P (trace (m ≫= f)).
Proof.
  intros Hm Hf. rewrite trace_bind. apply Forall_app. split; [done|].
  destruct (result m) as [a|]; [by apply Hf|constructor].
Qed.

Ltac list_events :=
  simpl;
  repeat first
    [ apply List.Forall_nil
    | apply List.Forall_cons; [simpl; try done; try (intros [=])|] ].

Lemma handle_reply_allowed cfg reply i err :
  Forall (allowed cfg) (trace (handle_reply json_pretty cfg reply i err)).
Proof.
  unfold handle_reply, when, lift, emit, at_.
  destruct (status_code reply =? 200), (entries (dns_data cfg) !! i),
    (DebugOutput cfg) eqn:Hd; try destruct (json_pretty (text reply));
    list_events.
Qed.

Lemma put_loop_allowed cfg payload records env n i err :
  Forall (fun url => ∃ entry, entry ∈ entries (dns_data cfg) ∧
                              url = dns_record (dns_data cfg) +:+ token entry)
    records →
  Forall (allowed cfg)
    (trace (put_loop json_dump json_pretty cfg payload records env n i err)).
Proof.
  intros Hrec. revert i err. induction n as [|n IH]; intros i err.
  { constructor. }
  cbn [put_loop]. unfold lift, emit, at_.
  destruct (records !! i) as [url|] eqn:Hurl; [|constructor].
  apply Forall_trace_bind; [constructor|]. intros ? [= <-].
  destruct (payload !! i) as [j|]; [|constructor].
  apply Forall_trace_bind; [constructor|]. intros ? [= <-].
  destruct (json_dump j) as [body|]; [|constructor].
  apply Forall_trace_bind; [constructor|]. intros ? [= <-].
  apply Forall_trace_bind.
  { apply List.Forall_cons; [|constructor]. simpl. do 2 (split; [done|]).
    eapply Forall_lookup_1 in Hrec; [|done]. done. }
  intros _ _. apply Forall_trace_bind; [apply handle_reply_allowed|].
  intros err' _. apply IH.
Qed.

Lemma cycle_allowed cfg st env :
  Forall (allowed cfg) (trace (cycle json_dump json_pretty cfg st env)).
Proof.
  unfold cycle, emit, lift, when.
  apply Forall_trace_bind; [list_events|]. intros _ _.
  destruct (status_code (response env) =? 200); [|list_events].
  destruct (slice_ip (text (response env))) as [ip|]; [|constructor].
  apply Forall_trace_bind; [constructor|]. intros ? [= <-]. simpl.
  destruct (String.eqb ip (old_ip_address st)).
  { destruct (DebugOutput cfg) eqn:Hd; list_events. }
  apply Forall_trace_bind; [list_events|]. intros _ _.
  apply Forall_trace_bind; [list_events|]. intros _ _.
  destruct (build_requests _ _ _ _ _) as [[payload records]|] eqn:Hb;
    [|constructor].
  apply Forall_trace_bind; [constructor|]. intros ? [= <-].
  apply build_requests_Ok in Hb as (js & _ & _ & ->).
  apply Forall_trace_bind.
  { apply put_loop_allowed. simpl. apply Forall_fmap, Forall_forall.
    intros entry Hin. by exists entry. }
  intros err _. list_events.
Qed.

(** X12.  Whatever the replies, and also when an exception cuts the run
    short, the loop only ever fetches the resolver's URL, sends updates
    only to the records of configured entries, with the bearer token of
    the configuration and as JSON, and logs at debug level only in the
    debug mode. *)
Theorem run_allowed cfg st envs :
  Forall (allowed cfg) (trace (run json_dump json_pretty cfg st envs)).
Proof.
  revert st. induction envs as [|env envs IH]; intros st; [constructor|].
  cbn [run]. apply Forall_trace_bind; [|intros st' _; apply IH].
  destruct (iteration_cases json_dump json_pretty cfg st env)
    as [->|(st0 & -> & _)]; [constructor|apply cycle_allowed].
Qed.

Lemma handle_reply_gets cfg reply i err :
  gets_of (trace (handle_reply json_pretty cfg reply i err)) = [].
Proof.
  unfold handle_reply, when, lift, emit, at_.
  destruct (status_code reply =? 200), (entries (dns_data cfg) !! i),
    (DebugOutput cfg); try destruct (json_pretty (text reply)); done.
Qed.

Lemma put_loop_gets cfg payload records env n i err :
  gets_of (trace (put_loop json_dump json_pretty cfg payload records env n i
                    err)) = [].
Proof.
  revert i err. induction n as [|n IH]; intros i err; [done|].
  cbn [put_loop]. unfold lift, emit, at_.
  destruct (records !! i) as [url|]; [|done].
  rewrite trace_bind. simpl.
  destruct (payload !! i) as [j|]; [|done].
  rewrite trace_bind. simpl.
  destruct (json_dump j) as [body|]; [|done].
  repeat (rewrite trace_bind; simpl).
  rewrite gets_of_app, handle_reply_gets. simpl.
  destruct (result (handle_reply _ _ _ _ _)); [apply IH|done].
Qed.

(** Every cycle calls the resolver exactly once. *)
Lemma cycle_gets cfg st env :
  gets_of (trace (cycle json_dump json_pretty cfg st env)) = [resolver_url].
Proof.
  unfold cycle, emit, lift, when. rewrite trace_bind. simpl. f_equal.
  destruct (status_code (response env) =? 200); [|done].
  destruct (slice_ip (text (response env))) as [ip|]; [|done].
  rewrite trace_bind. simpl.
  destruct (String.eqb ip (old_ip_address st)).
  { by destruct (DebugOutput cfg). }
  repeat (rewrite trace_bind; simpl).
  destruct (build_requests _ _ _ _ _) as [[payload records]|]; [|done].
  simpl. rewrite trace_bind, gets_of_app, put_loop_gets. simpl.
  by destruct (result (put_loop _ _ _ _ _ _ _ _ _)).
Qed.

(** A cycle sends updates only when the resolver answers with a new
    address. *)
Lemma cycle_puts_cases cfg st env :
  puts_of (trace (cycle json_dump json_pretty cfg st env)) = [] ∨
  ∃ ip, status_code (response env) = 200 ∧
        slice_ip (text (response env)) = Ok ip ∧
        ip ≠ old_ip_address st.
Proof.
  destruct (decide (status_code (response env) = 200)) as [H200|H200].
  2:{ left. destruct (cycle_failed json_dump json_pretty cfg st env H200)
        as [-> _]. done. }
  destruct (slice_ip (text (response env))) as [ip|x] eqn:Hs.
  2:{ left. unfold cycle. by rewrite H200, Hs. }
  destruct (decide (ip = old_ip_address st)) as [Heq|Hne].
  - left. by destruct (cycle_unchanged json_dump json_pretty cfg st env ip
                         H200 Hs Heq) as (-> & _).
  - right. by exists ip.
Qed.

Lemma cycle_puts_le cfg st env :
  (length (puts_of (trace (cycle json_dump json_pretty cfg st env)))
   ≤ length (entries (dns_data cfg)))%nat.
Proof.
  destruct (cycle_puts_cases cfg st env) as [->|(ip & H200 & Hs & Hne)].
  { simpl. lia. }
  apply Nat.nlt_ge. intros Hlt.
  destruct (lookup_lt_is_Some_2 _ _ Hlt) as [r Hr].
  destruct (cycle_changed_puts json_dump json_pretty cfg st env ip H200 Hs
              Hne _ r Hr) as (e & He & _).
  apply lookup_lt_Some in He. lia.
Qed.

Lemma cycle_puts_whole cfg st env st' :
  result (cycle json_dump json_pretty cfg st env) = Ok st' →
  puts_of (trace (cycle json_dump json_pretty cfg st env)) = [] ∨
  length (puts_of (trace (cycle json_dump json_pretty cfg st env)))
  = length (entries (dns_data cfg)).
Proof.
  intros Hres.
  destruct (cycle_puts_cases cfg st env) as [->|(ip & H200 & Hs & Hne)];
    [by left|right].
  destruct (cycle_changed_Ok json_dump json_pretty cfg st env ip H200 Hs Hne
              st' Hres) as [Hall _].
  symmetry. by eapply Forall2_length.
Qed.

(** X13.  However a run goes, and also when an exception cuts it short,
    the resolver is called at most once for each iteration, and at most
    one update for each configured entry is sent for each call of the
    resolver. *)
Theorem run_call_counts cfg st envs :
  (length (gets_of (trace (run json_dump json_pretty cfg st envs)))
   ≤ length envs)%nat ∧
  (length (puts_of (trace (run json_dump json_pretty cfg st envs)))
   ≤ length (gets_of (trace (run json_dump json_pretty cfg st envs)))
     * length (entries (dns_data cfg)))%nat.
Proof.
  revert st. induction envs as [|env envs IH]; intros st.
  { simpl. lia. }
  cbn [run]. rewrite trace_bind, gets_of_app, puts_of_app, !length_app.
  set (rest := match result (iteration json_dump json_pretty cfg st env) with
               | Ok a => trace (run json_dump json_pretty cfg a envs)
               | Throw _ => []
               end).
  assert ((length (gets_of rest) ≤ length envs)%nat ∧
          (length (puts_of rest)
           ≤ length (gets_of rest) * length (entries (dns_data cfg)))%nat)
    as [Hg Hp].
  { subst rest. destruct (result (iteration _ _ _ _ _)) as [st1|];
      [apply IH|simpl; lia]. }
  clearbody rest.
  destruct (iteration_cases json_dump json_pretty cfg st env)
    as [Hi|(st0 & Hi & _)]; rewrite Hi in *.
  - simpl. lia.
  - rewrite cycle_gets. pose proof (cycle_puts_le cfg st0 env). cbn [length]. lia.
Qed.

(** X14.  A run that ends without an exception has sent whole batches
    only: the number of updates is a multiple of the number of configured
    entries, with at most one batch for each iteration. *)
Theorem run_sends_whole_batches cfg st envs st' :
  result (run json_dump json_pretty cfg st envs) = Ok st' →
  ∃ k, (k ≤ length envs)%nat ∧
       length (puts_of (trace (run json_dump json_pretty cfg st envs)))
       = (k * length (entries (dns_data cfg)))%nat.
Proof.
  revert st. induction envs as [|env envs IH]; intros st.
  { intros _. exists 0%nat. simpl. lia. }
  cbn [run]. rewrite result_bind, trace_bind, puts_of_app, length_app.
  destruct (result (iteration json_dump json_pretty cfg st env)) as [st1|]
    eqn:H1; [|done].
  intros Hrun. destruct (IH st1 Hrun) as (k & Hk & ->).
  destruct (iteration_cases json_dump json_pretty cfg st env)
    as [Hi|(st0 & Hi & _)]; rewrite Hi in *.
  - exists k. simpl. lia.
  - destruct (cycle_puts_whole cfg st0 env st1 H1) as [->| ->].
    + exists k. simpl. lia.
    + exists (S k). simpl. lia.
Qed.

(** X15.  Over a whole run the baseline is the one the run started with,
    or an address that a reading of the run resolved with status 200 and
    for which every update of that reading succeeded. *)
Theorem baseline_provenance cfg st envs st' :
  result (run json_dump json_pretty cfg st envs) = Ok st' →
  old_ip_address st' = old_ip_address st ∨
  ∃ env, env ∈ envs ∧
         status_code (response env) = 200 ∧
         slice_ip (text (response env)) = Ok (old_ip_address st') ∧
         ∀ k, (k < length (entries (dns_data cfg)))%nat →
              status_code (post env k) = 200.
Proof.
  revert st. induction envs as [|env envs IH]; intros st.
  { intros [= <-]. by left. }
  cbn [run]. rewrite result_bind.
  destruct (result (iteration json_dump json_pretty cfg st env)) as [st1|]
    eqn:H1; [|done].
  intros Hrun.
  destruct (IH st1 Hrun) as [Hsame|(env' & Hin & H')].
  2:{ right. exists env'. split; [set_solver|done]. }
  rewrite Hsame. clear Hrun Hsame IH.
  destruct (iteration_cases json_dump json_pretty cfg st env)
    as [Hi|(st0 & Hi & _ & Hold & _)]; rewrite Hi in H1.
  { injection H1 as <-. by left. }
  rewrite <- Hold.
  destruct (cycle_cases _ _ _ _ _ _ H1)
    as [[_ ->]|(ip & H200 & Hs & [[_ ->]|[Hne ->]])]; [by left|by left|].
  unfold settle.
  destruct (any_failed env 0 (length (entries (dns_data cfg)))) eqn:Hf;
    [by left|].
  right. exists env. split; [set_solver|]. simpl. do 2 (split; [done|]).
  intros k Hk. apply (proj1 (any_failed_false _ _ _) Hf). lia.
Qed.

(** X16.  After every cycle that ends, the observed address is either
    "invalid" or the baseline: a run started by [main] never holds
    an observed address that differs from both. *)
Theorem observed_is_invalid_or_baseline cfg now envs st' :
  result (run json_dump json_pretty cfg (initial_state now) envs) = Ok st' →
  ip_address st' = "invalid" ∨ ip_address st' = old_ip_address st'.
Proof.
  assert (∀ st, (ip_address st = "invalid" ∨
                 ip_address st = old_ip_address st) →
                result (run json_dump json_pretty cfg st envs) = Ok st' →
                ip_address st' = "invalid" ∨
                ip_address st' = old_ip_address st') as Hinv.
  { induction envs as [|env envs IH]; intros st Hst.
    { by intros [= <-]. }
    cbn [run]. rewrite result_bind.
    destruct (result (iteration json_dump json_pretty cfg st env)) as [st1|]
      eqn:H1; [|done].
    apply IH.
    destruct (iteration_cases json_dump json_pretty cfg st env)
      as [Hi|(st0 & Hi & _)]; rewrite Hi in H1.
    { by injection H1 as <-. }
    destruct (cycle_cases _ _ _ _ _ _ H1)
      as [[_ ->]|(ip & H200 & Hs & [[-> ->]|[Hne ->]])];
      [by left|by right|].
    unfold settle. destruct (any_failed _ _ _); [by left|by right]. }
  apply Hinv. by left.
Qed.

(** X17.  No decision of the loop depends on the observed address
    [ip_address]: two runs on the same readings from states that differ in
    it only do the same things, end alike, and end in states that differ in
    it only. *)
Theorem observed_is_never_read cfg st1 st2 envs :
  set_ip_address "" st1 = set_ip_address "" st2 →
  trace (run json_dump json_pretty cfg st1 envs)
  = trace (run json_dump json_pretty cfg st2 envs) ∧
  match result (run json_dump json_pretty cfg st1 envs),
        result (run json_dump json_pretty cfg st2 envs) with
  | Ok a, Ok b => set_ip_address "" a = set_ip_address "" b
  | Throw x, Throw y => x = y
  | _, _ => False
  end.
Proof.
  revert st1 st2. induction envs as [|env envs IH]; intros st1 st2 Heq.
  { done. }
  assert (old_ip_address st1 = old_ip_address st2 ∧
          timer_start st1 = timer_start st2 ∧
          first_run st1 = first_run st2) as (Hold & Htimer & Hfirst).
  { by injection Heq. }
  assert (waiting (update_rate cfg) st1 env
          = waiting (update_rate cfg) st2 env) as Hwait.
  { unfold waiting, elapsed_ms. by rewrite Htimer. }
  assert (∀ st0 ip, cycle json_dump json_pretty cfg (set_ip_address ip st0) env
                    = cycle json_dump json_pretty cfg st0 env) as Hcycle.
  { done. }
  assert (trace (iteration json_dump json_pretty cfg st1 env)
          = trace (iteration json_dump json_pretty cfg st2 env) ∧
          match result (iteration json_dump json_pretty cfg st1 env),
                result (iteration json_dump json_pretty cfg st2 env) with
          | Ok a, Ok b => set_ip_address "" a = set_ip_address "" b
          | Throw x, Throw y => x = y
          | _, _ => False
          end) as [Htr Hres].
  { unfold iteration, gate. rewrite Hfirst, Hwait.
    destruct (first_run st2) eqn:Hf2; cbn [negb].
    - rewrite <- (Hcycle (set_first_run false st1) "").
      rewrite <- (Hcycle (set_first_run false st2) "").
      replace (set_ip_address "" (set_first_run false st1))
        with (set_ip_address "" (set_first_run false st2))
        by (unfold set_ip_address, set_first_run; simpl; congruence).
      split; [done|]. by destruct (result (cycle _ _ _ _ _)).
    - destruct (waiting (update_rate cfg) st2 env).
      + done.
      + rewrite <- (Hcycle (set_timer_start _ st1) "").
        rewrite <- (Hcycle (set_timer_start _ st2) "").
        replace (set_ip_address "" (set_timer_start (timer_restart env) st1))
          with (set_ip_address "" (set_timer_start (timer_restart env) st2))
          by (unfold set_ip_address, set_timer_start; simpl; congruence).
        split; [done|]. by destruct (result (cycle _ _ _ _ _)). }
  cbn [run]. rewrite !trace_bind, !result_bind, Htr.
  destruct (result (iteration json_dump json_pretty cfg st1 env)) as [a|x],
    (result (iteration json_dump json_pretty cfg st2 env)) as [b|y];
    try done.
  destruct (IH a b Hres) as [Htr' Hres']. by rewrite Htr'.
Qed.

(** X18.  Once a batch for an address has succeeded, a cycle that
    resolves the same address again sends nothing and leaves the state as
    it is. *)
Theorem commit_then_idle cfg st env ip st' env' :
  status_code (response env) = 200 →
  slice_ip (text (response env)) = Ok ip →
  ip ≠ old_ip_address st →
  (∀ k, (k < length (entries (dns_data cfg)))%nat →
        status_code (post env k) = 200) →
  result (cycle json_dump json_pretty cfg st env) = Ok st' →
  status_code (response env') = 200 →
  slice_ip (text (response env')) = Ok ip →
  puts_of (trace (cycle json_dump json_pretty cfg st' env')) = [] ∧
  result (cycle json_dump json_pretty cfg st' env') = Ok st'.
Proof.
  intros H200 Hs Hne Hall Hres H200' Hs'.
  destruct (cycle_changed_Ok json_dump json_pretty cfg st env ip H200 Hs Hne
              st' Hres) as [_ ->].
  assert (any_failed env 0 (length (entries (dns_data cfg))) = false) as ->.
  { apply any_failed_false. intros k Hk. apply Hall. lia. }
  unfold settle.
  destruct (cycle_unchanged json_dump json_pretty cfg
              (set_old_ip_address ip (set_ip_address ip st)) env' ip
              H200' Hs' eq_refl) as (Hp & _ & Hr).
  split; [done|]. by rewrite Hr.
Qed.

(** X19.  A cycle whose batch cannot be built, because the [ttl] of some
    entry does not convert, sends no update at all, not even for the
    entries before that one, and ends the process by the exception. *)
Theorem bad_ttl_blocks_batch cfg st env ip entry x :
  status_code (response env) = 200 →
  slice_ip (text (response env)) = Ok ip →
  ip ≠ old_ip_address st →
  entry ∈ entries (dns_data cfg) →
  CLocale.stoi (ttl entry) = Throw x →
  puts_of (trace (cycle json_dump json_pretty cfg st env)) = [] ∧
  ∃ y, result (cycle json_dump json_pretty cfg st env) = Throw y.
Proof.
  intros H200 Hs Hne Hin Hx.
  rewrite (cycle_changed_trace json_dump json_pretty cfg st env ip H200 Hs
             Hne).
  rewrite (cycle_changed_result json_dump json_pretty cfg st env ip H200 Hs
             Hne).
  destruct (build_requests ip (dns_data cfg) (entries (dns_data cfg)) [] [])
    as [[payload records]|y] eqn:Hb; [|by eauto].
  apply build_requests_Ok in Hb as (js & Hjs & _).
  apply list_elem_of_lookup in Hin as [i Hi].
  destruct (Forall2_lookup_l _ _ _ _ _ Hjs Hi) as (j & _ & Hj).
  destruct (make_payload_inv _ _ _ Hj) as (b & n & _ & Hn & _).
  by rewrite Hx in Hn.
Qed.

Lemma batch_of_Ok cfg st env ip p st' :
  result (batch_of json_dump json_pretty cfg st env ip p) = Ok st' →
  trace (batch_of json_dump json_pretty cfg st env ip p)
  = trace (put_loop json_dump json_pretty cfg p.1 p.2 env (length p.1) 0
             false) ++ [Flush].
Proof.
  unfold batch_of, emit. rewrite result_bind, trace_bind.
  by destruct (result (put_loop _ _ _ _ _ _ _ _ _)).
Qed.

(** X20.  A cycle that ends has flushed the log as its last action,
    except when it found the address unchanged: on that path it leaves
    the loop body by [continue] and flushes nothing. *)
Theorem cycle_flush cfg st env st' :
  result (cycle json_dump json_pretty cfg st env) = Ok st' →
  (status_code (response env) = 200 →
   slice_ip (text (response env)) = Ok (old_ip_address st) →
   Flush ∉ trace (cycle json_dump json_pretty cfg st env)) ∧
  ((status_code (response env) ≠ 200 ∨
    slice_ip (text (response env)) ≠ Ok (old_ip_address st)) →
   last (trace (cycle json_dump json_pretty cfg st env)) = Some Flush).
Proof.
  intros Hres. split.
  - intros H200 Hs. unfold cycle. rewrite H200, Hs. simpl.
    rewrite String.eqb_refl. unfold when, emit.
    destruct (DebugOutput cfg); simpl; set_solver.
  - intros Hother.
    destruct (decide (status_code (response env) = 200)) as [H200|H200].
    2:{ by destruct (cycle_failed json_dump json_pretty cfg st env H200)
          as [-> _]. }
    destruct (slice_ip (text (response env))) as [ip|y] eqn:Hs.
    2:{ revert Hres. unfold cycle. by rewrite H200, Hs. }
    assert (ip ≠ old_ip_address st) as Hne.
    { intros ->. by destruct Hother. }
    revert Hres.
    rewrite (cycle_changed_trace json_dump json_pretty cfg st env ip H200 Hs
               Hne).
    rewrite (cycle_changed_result json_dump json_pretty cfg st env ip H200 Hs
               Hne).
    destruct (build_requests _ _ _ _ _) as [p|]; [|done].
    intros Hres. rewrite (batch_of_Ok _ _ _ _ _ _ Hres).
    rewrite !app_comm_cons. apply last_snoc.
Qed.

Lemma handle_reply_quiet cfg reply i err entry :
  DebugOutput cfg = false →
  entries (dns_data cfg) !! i = Some entry →
  trace (handle_reply json_pretty cfg reply i err)
  = [if status_code reply =? 200 then
       Log info "POST operation for entry '{0}' successful!"
         [AStr (prefix entry)]
     else
       Log error "POST operation for entry '{0}' failed with code: {1}"
         [AStr (prefix entry); ALong (status_code reply)]].
Proof.
  intros Hd He. unfold handle_reply, when, lift, emit, at_.
  rewrite He, Hd. by destruct (status_code reply =? 200).
Qed.

Lemma put_loop_quiet cfg ip env payload records reqs n i err :
  DebugOutput cfg = false →
  Forall2 (fun e j => make_payload ip e = Ok j)
    (entries (dns_data cfg)) payload →
  records = (fun e => dns_record (dns_data cfg) +:+ token e)
              <$> entries (dns_data cfg) →
  Forall2 (fun e r => request_of json_dump cfg ip e = Ok r)
    (entries (dns_data cfg)) reqs →
  (i + n = length (entries (dns_data cfg)))%nat →
  trace (put_loop json_dump json_pretty cfg payload records env n i err)
  = batch_events env i (drop i (entries (dns_data cfg))) (drop i reqs).
Proof.
  intros Hd Hp Hr Hreqs. revert i err.
  induction n as [|n IH]; intros i err Hlen.
  { rewrite drop_ge by lia. done. }
  destruct (lookup_lt_is_Some_2 (entries (dns_data cfg)) i) as [e He];
    [lia|].
  destruct (vectors_at cfg ip payload records Hp Hr i e He)
    as (j & Hmk & Hpi & Hri & _).
  destruct (Forall2_lookup_l _ _ _ _ _ Hreqs He) as (r & Hri' & Hrq).
  destruct (request_of_inv _ _ _ _ _ Hrq) as (j' & body & Hmk' & Hb & ->).
  rewrite Hmk in Hmk'. injection Hmk' as <-.
  rewrite (drop_S _ _ _ He), (drop_S _ _ _ Hri').
  cbn [put_loop batch_events]. rewrite Hri, Hpi. unfold lift, emit.
  do 3 (rewrite trace_bind; simpl). rewrite Hb. simpl. f_equal.
  rewrite (handle_reply_quiet cfg _ i err e Hd He). simpl. f_equal.
  rewrite (handle_reply_total json_pretty cfg (post env i) i err e He)
    by (intros Hd'; by rewrite Hd in Hd').
  apply IH. lia.
Qed.

(** X21.  Outside the debug mode, a cycle that finds a new address and
    can build its requests does exactly this, whatever the replies: it
    calls the resolver, clears the console, logs the new address, then for
    each entry in turn sends its request and logs the reply at info level
    when the status is 200 and at error level, with the status, when it is
    not, and at the end flushes the log. *)
Theorem quiet_batch_trace cfg st env ip reqs :
  DebugOutput cfg = false →
  status_code (response env) = 200 →
  slice_ip (text (response env)) = Ok ip →
  ip ≠ old_ip_address st →
  Forall2 (fun e r => request_of json_dump cfg ip e = Ok r)
    (entries (dns_data cfg)) reqs →
  trace (cycle json_dump json_pretty cfg st env)
  = Get resolver_url :: ClearScreen
    :: Log info "Retrieved new public IP address: {0}" [AStr ip]
    :: batch_events env 0 (entries (dns_data cfg)) reqs ++ [Flush].
Proof.
  intros Hd H200 Hs Hne Hreqs.
  assert (replies_loggable json_pretty cfg env) as Hlog.
  { intros Hd'. by rewrite Hd in Hd'. }
  pose proof (cycle_changed_total json_dump json_pretty cfg st env ip H200 Hs
                Hne reqs Hreqs Hlog) as Hres.
  revert Hres.
  rewrite (cycle_changed_trace json_dump json_pretty cfg st env ip H200 Hs
             Hne).
  rewrite (cycle_changed_result json_dump json_pretty cfg st env ip H200 Hs
             Hne).
  destruct (build_requests ip (dns_data cfg) (entries (dns_data cfg)) [] [])
    as [p|] eqn:Hb; [|done].
  intros Hres. rewrite (batch_of_Ok _ _ _ _ _ _ Hres). do 4 f_equal.
  destruct (build_requests_vectors cfg ip p Hb) as (Hp & Hr & Hn).
  rewrite (put_loop_quiet cfg ip env p.1 p.2 reqs (length p.1) 0 false Hd Hp
             Hr Hreqs); [done|by rewrite Hn].
Qed.

(** X22.  With [update_rate] 0 (which is also what a [-r] without a number
    gives) and a clock that does not run backwards, every iteration calls
    the resolver: the loop polls without pause. *)
Theorem zero_rate_polls_always cfg st env :
  update_rate cfg = 0 →
  timer_start st ≤ timer_end env →
  gets_of (trace (iteration json_dump json_pretty cfg st env))
  = [resolver_url].
Proof.
  intros Hrate Hclock. destruct (first_run st) eqn:Hf.
  - rewrite iteration_first by done. apply cycle_gets.
  - rewrite iteration_due; [apply cycle_gets|done|].
    rewrite Hrate. by apply waiting_zero.
Qed.

End More.

(** *** The further properties on sample inputs *)

Ltac decide_it := apply (bool_decide_unpack _); vm_compute; exact I.

Lemma GetCmdOption_value_witness :
  ("-r" ∉ ["updater"]) ∧
  GetCmdOption (["updater"] ++ "-r" :: "60" :: ["-d"]) "-r" = Some "60".
Proof.
  assert ("-r" ∉ ["updater"]) as H by decide_it.
  split; [assumption|].
  exact (proj1 (GetCmdOption_value ["updater"] ["-d"] "-r" "60" H)).
Defined.

Lemma update_rate_of_value_witness :
  ("-r" ∉ ["updater"]) ∧
  update_rate_of (["updater"] ++ "-r" :: "-5" :: []) = Some 4294967291.
Proof.
  assert ("-r" ∉ ["updater"]) as H by decide_it.
  split; [assumption|].
  refine (proj2 (update_rate_of_value ["updater"] [] "-5" H) (-5) _ _);
    [reflexivity|vm_compute; split; discriminate].
Defined.

Lemma main_rate_without_value_witness :
  ("-r" ∉ ["updater"]) ∧
  main Sample.dump Sample.pretty (["updater"] ++ ["-r"])
    Sample.file 0 [Sample.all_ok] = ([], Undefined).
Proof.
  assert ("-r" ∉ ["updater"]) as H by decide_it.
  split; [assumption|].
  exact (main_rate_without_value Sample.dump Sample.pretty ["updater"]
           Sample.file 0 [Sample.all_ok] H).
Defined.

Lemma stob_skips_space_witness :
  CLocale.isspace " " = true ∧ stob (String " " "true") true = stob "true" true.
Proof.
  assert (CLocale.isspace " " = true) as H by reflexivity.
  split; [assumption|]. exact (stob_skips_space " " "true" true H).
Defined.

Lemma vectors_hold_entries_witness :
  ∃ payload records,
    build_requests "1.2.3.4" Sample.data (entries Sample.data) [] []
    = Ok (payload, records) ∧
    entries Sample.data !! 1%nat = Some Sample.vpn ∧
    at_ records 1 = Ok (dns_record Sample.data +:+ token Sample.vpn).
Proof.
  destruct (build_requests "1.2.3.4" Sample.data (entries Sample.data) [] [])
    as [[payload records]|] eqn:Hb; [|vm_compute in Hb; discriminate].
  exists payload, records.
  assert (entries Sample.data !! 1%nat = Some Sample.vpn) as He
    by reflexivity.
  do 2 (split; [done|]).
  exact (proj1 (proj2 (proj2 (vectors_hold_entries "1.2.3.4" Sample.data
                                payload records 1 Sample.vpn Hb He)))).
Defined.

Lemma slice_ip_edges_witness :
  StdString.size "a:bc" < StdString.npos ∧ slice_ip "a:bc" = Ok "c".
Proof.
  assert (StdString.size "a:bc" < StdString.npos) as H
    by (vm_compute; reflexivity).
  split; [assumption|]. exact (slice_ip_edges "a:bc" H).
Defined.

Lemma run_sends_whole_batches_witness :
  result (run Sample.dump Sample.pretty Sample.cfg Sample.fresh
            [Sample.second_fails; Sample.all_ok; Sample.unchanged])
  = Ok (mk_State "1.2.3.4" "1.2.3.4" 40000000001 false) ∧
  ∃ k, (k ≤ 3)%nat ∧
       length (puts_of (trace (run Sample.dump Sample.pretty Sample.cfg
                                 Sample.fresh
                                 [Sample.second_fails; Sample.all_ok;
                                  Sample.unchanged])))
       = (k * length (entries (dns_data Sample.cfg)))%nat.
Proof.
  assert (result (run Sample.dump Sample.pretty Sample.cfg Sample.fresh
                    [Sample.second_fails; Sample.all_ok; Sample.unchanged])
          = Ok (mk_State "1.2.3.4" "1.2.3.4" 40000000001 false)) as H
    by (vm_compute; reflexivity).
  split; [assumption|].
  exact (run_sends_whole_batches Sample.dump Sample.pretty Sample.cfg _ _ _ H).
Defined.

Lemma baseline_provenance_witness :
  result (run Sample.dump Sample.pretty Sample.cfg Sample.fresh
            [Sample.second_fails; Sample.all_ok])
  = Ok (mk_State "1.2.3.4" "1.2.3.4" 40000000001 false) ∧
  ("1.2.3.4" = old_ip_address Sample.fresh ∨
   ∃ env, env ∈ [Sample.second_fails; Sample.all_ok] ∧
          status_code (response env) = 200 ∧
          slice_ip (text (response env)) = Ok "1.2.3.4" ∧
          ∀ k, (k < length (entries (dns_data Sample.cfg)))%nat →
               status_code (post env k) = 200).
Proof.
  assert (result (run Sample.dump Sample.pretty Sample.cfg Sample.fresh
                    [Sample.second_fails; Sample.all_ok])
          = Ok (mk_State "1.2.3.4" "1.2.3.4" 40000000001 false)) as H
    by (vm_compute; reflexivity).
  split; [assumption|].
  exact (baseline_provenance Sample.dump Sample.pretty Sample.cfg _ _ _ H).
Defined.

Lemma observed_is_invalid_or_baseline_witness :
  result (run Sample.dump Sample.pretty Sample.cfg (initial_state 0)
            [Sample.all_ok; Sample.second_fails])
  = Ok (mk_State "1.2.3.4" "1.2.3.4" 40000000001 false) ∧
  ("1.2.3.4" = "invalid" ∨ "1.2.3.4" = "1.2.3.4").
Proof.
  assert (result (run Sample.dump Sample.pretty Sample.cfg (initial_state 0)
                    [Sample.all_ok; Sample.second_fails])
          = Ok (mk_State "1.2.3.4" "1.2.3.4" 40000000001 false)) as H
    by (vm_compute; reflexivity).
  split; [assumption|].
  exact (observed_is_invalid_or_baseline Sample.dump Sample.pretty Sample.cfg
           0 _ _ H).
Defined.

Lemma observed_is_never_read_witness :
  set_ip_address "" Sample.fresh
  = set_ip_address "" (set_ip_address "1.2.3.4" Sample.fresh) ∧
  trace (run Sample.dump Sample.pretty Sample.cfg Sample.fresh
           [Sample.unchanged; Sample.all_ok])
  = trace (run Sample.dump Sample.pretty Sample.cfg
             (set_ip_address "1.2.3.4" Sample.fresh)
             [Sample.unchanged; Sample.all_ok]).
Proof.
  assert (set_ip_address "" Sample.fresh
          = set_ip_address "" (set_ip_address "1.2.3.4" Sample.fresh)) as H
    by reflexivity.
  split; [assumption|].
  exact (proj1 (observed_is_never_read Sample.dump Sample.pretty Sample.cfg
                  _ _ [Sample.unchanged; Sample.all_ok] H)).
Defined.

Lemma commit_then_idle_witness :
  status_code (response Sample.all_ok) = 200 ∧
  slice_ip (text (response Sample.all_ok)) = Ok "1.2.3.4" ∧
  "1.2.3.4" ≠ old_ip_address Sample.fresh ∧
  (∀ k, (k < length (entries (dns_data Sample.cfg)))%nat →
        status_code (post Sample.all_ok k) = 200) ∧
  result (cycle Sample.dump Sample.pretty Sample.cfg Sample.fresh
            Sample.all_ok)
  = Ok (mk_State "1.2.3.4" "1.2.3.4" 0 true) ∧
  puts_of (trace (cycle Sample.dump Sample.pretty Sample.cfg
                    (mk_State "1.2.3.4" "1.2.3.4" 0 true) Sample.all_ok))
  = [].
Proof.
  assert (status_code (response Sample.all_ok) = 200) as H1 by reflexivity.
  assert (slice_ip (text (response Sample.all_ok)) = Ok "1.2.3.4") as H2
    by reflexivity.
  assert ("1.2.3.4" ≠ old_ip_address Sample.fresh) as H3 by discriminate.
  assert (∀ k, (k < length (entries (dns_data Sample.cfg)))%nat →
               status_code (post Sample.all_ok k) = 200) as H4
    by (intros k _; reflexivity).
  assert (result (cycle Sample.dump Sample.pretty Sample.cfg Sample.fresh
                    Sample.all_ok)
          = Ok (mk_State "1.2.3.4" "1.2.3.4" 0 true)) as H5
    by (vm_compute; reflexivity).
  do 5 (split; [assumption|]).
  exact (proj1 (commit_then_idle Sample.dump Sample.pretty Sample.cfg
                  Sample.fresh Sample.all_ok "1.2.3.4" _ Sample.all_ok
                  H1 H2 H3 H4 H5 H1 H2)).
Defined.

Lemma bad_ttl_blocks_batch_witness :
  status_code (response Sample.all_ok) = 200 ∧
  slice_ip (text (response Sample.all_ok)) = Ok "1.2.3.4" ∧
  "1.2.3.4" ≠ old_ip_address Sample.fresh ∧
  Sample.auto_ttl ∈ entries (dns_data Sample.bad_cfg) ∧
  CLocale.stoi (ttl Sample.auto_ttl) = Throw invalid_argument ∧
  puts_of (trace (cycle Sample.dump Sample.pretty Sample.bad_cfg Sample.fresh
                    Sample.all_ok)) = [].
Proof.
  assert (status_code (response Sample.all_ok) = 200) as H1 by reflexivity.
  assert (slice_ip (text (response Sample.all_ok)) = Ok "1.2.3.4") as H2
    by reflexivity.
  assert ("1.2.3.4" ≠ old_ip_address Sample.fresh) as H3 by discriminate.
  assert (Sample.auto_ttl ∈ entries (dns_data Sample.bad_cfg)) as H4
    by (simpl; apply list_elem_of_here).
  assert (CLocale.stoi (ttl Sample.auto_ttl) = Throw invalid_argument) as H5
    by reflexivity.
  do 5 (split; [assumption|]).
  exact (proj1 (bad_ttl_blocks_batch Sample.dump Sample.pretty Sample.bad_cfg
                  Sample.fresh Sample.all_ok "1.2.3.4" Sample.auto_ttl _
                  H1 H2 H3 H4 H5)).
Defined.

Lemma cycle_flush_witness :
  result (cycle Sample.dump Sample.pretty Sample.cfg Sample.later
            Sample.resolver_down)
  = Ok (set_ip_address "invalid" Sample.later) ∧
  last (trace (cycle Sample.dump Sample.pretty Sample.cfg Sample.later
                 Sample.resolver_down)) = Some Flush.
Proof.
  assert (result (cycle Sample.dump Sample.pretty Sample.cfg Sample.later
                    Sample.resolver_down)
          = Ok (set_ip_address "invalid" Sample.later)) as H
    by (vm_compute; reflexivity).
  split; [assumption|].
  apply (proj2 (cycle_flush Sample.dump Sample.pretty Sample.cfg Sample.later
                  Sample.resolver_down _ H)).
  left. discriminate.
Defined.

Lemma quiet_batch_trace_witness :
  DebugOutput Sample.cfg = false ∧
  status_code (response Sample.second_fails) = 200 ∧
  slice_ip (text (response Sample.second_fails)) = Ok "1.2.3.4" ∧
  "1.2.3.4" ≠ old_ip_address Sample.fresh ∧
  Forall2 (fun e r => request_of Sample.dump Sample.cfg "1.2.3.4" e = Ok r)
    (entries (dns_data Sample.cfg)) Sample.requests ∧
  trace (cycle Sample.dump Sample.pretty Sample.cfg Sample.fresh
           Sample.second_fails)
  = Get resolver_url :: ClearScreen
    :: Log info "Retrieved new public IP address: {0}" [AStr "1.2.3.4"]
    :: batch_events Sample.second_fails 0 (entries (dns_data Sample.cfg))
         Sample.requests ++ [Flush].
Proof.
  assert (DebugOutput Sample.cfg = false) as H0 by reflexivity.
  assert (status_code (response Sample.second_fails) = 200) as H1
    by reflexivity.
  assert (slice_ip (text (response Sample.second_fails)) = Ok "1.2.3.4")
    as H2 by reflexivity.
  assert ("1.2.3.4" ≠ old_ip_address Sample.fresh) as H3 by discriminate.
  assert (Forall2
            (fun e r => request_of Sample.dump Sample.cfg "1.2.3.4" e = Ok r)
            (entries (dns_data Sample.cfg)) Sample.requests) as H4
    by (constructor; [reflexivity|constructor; [reflexivity|constructor]]).
  do 5 (split; [assumption|]).
  exact (quiet_batch_trace Sample.dump Sample.pretty Sample.cfg Sample.fresh
           Sample.second_fails "1.2.3.4" Sample.requests H0 H1 H2 H3 H4).
Defined.

Lemma zero_rate_polls_always_witness :
  update_rate (mk_Config 0 false Sample.data) = 0 ∧
  timer_start Sample.later ≤ timer_end Sample.early ∧
  gets_of (trace (iteration Sample.dump Sample.pretty
                    (mk_Config 0 false Sample.data) Sample.later
                    Sample.early))
  = [resolver_url].
Proof.
  assert (update_rate (mk_Config 0 false Sample.data) = 0) as H1
    by reflexivity.
  assert (timer_start Sample.later ≤ timer_end Sample.early) as H2
    by (vm_compute; discriminate).
  do 2 (split; [assumption|]).
  exact (zero_rate_polls_always Sample.dump Sample.pretty _ _ _ H1 H2).
Defined.
